(** * RSU vesting schedules and their valuation

    A shallow embedding of the vesting-schedule generator and the valuation
    reducers of [utils/rsuCalculations.ts], of the price client
    [utils/stockPrices.ts] and of [updateVestPrices] (the two calculator
    components), followed by the properties of the specification.

    Conventions of the embedding.
    - A JavaScript [number] is an extended integer: a finite value is an exact
      integer, and the three non-finite values [Infinity], [-Infinity] and
      [NaN] are kept, because the generator divides by a count that can be
      zero.  Rounding of binary floating point and the sign of zero are
      outside the model; share counts and month counts are integers, and a
      price is an integer number of the smallest currency unit.  The model
      computes what the code computes as long as every value stays a safe
      integer, of magnitude at most [MAX_SAFE_INTEGER]: there the sums,
      differences and products of binary64 are exact, and so is the floor of
      a quotient ([floor_of_rounded_quotient]).  The theorems that depend
      on the arithmetic of share counts assume [safeInputs].
    - A [Date] is a local calendar date with a time of day; the order of two
      dates is the order of their instants.
    - The [for] loop of the generator is run with fuel; the fuel supplied is
      enough exactly when the loop of the source terminates. *)

From Stdlib Require Import ZArith List Lia Bool String Sorted.
From Stdlib Require Import Permutation DecimalString.
From Stdlib Require QArith Qround Qabs Lqa.
Import ListNotations.
Open Scope Z_scope.

(* ================================================================== *)
(** ** JavaScript numbers *)

Module JS.

Inductive number : Type :=
| Num (z : Z)
| PosInf
| NegInf
| NaN.

Definition number_eqb (a b : number) : bool :=
match a, b with
| Num x, Num y => x =? y
| PosInf, PosInf => true
| NegInf, NegInf => true
| _, _ => false
end.

(** Unary minus. *)
Definition nneg (a : number) : number :=
match a with
| Num x => Num (- x)
| PosInf => NegInf
| NegInf => PosInf
| NaN => NaN
end.

(** [a + b]. *)
Definition nadd (a b : number) : number :=
match a, b with
| NaN, _ | _, NaN => NaN
| Num x, Num y => Num (x + y)
| PosInf, NegInf | NegInf, PosInf => NaN
| PosInf, _ | _, PosInf => PosInf
| NegInf, _ | _, NegInf => NegInf
end.

(** [a - b]. *)
Definition nsub (a b : number) : number := nadd a (nneg b).

(** An infinity of the sign of [z] times the sign [pos]; [NaN] at zero. *)
Definition inf_times (pos : bool) (z : Z) : number :=
if z =? 0 then NaN
else if Bool.eqb pos (0 <? z) then PosInf else NegInf.

(** [a * b]. *)
Definition nmul (a b : number) : number :=
match a, b with
| NaN, _ | _, NaN => NaN
| Num x, Num y => Num (x * y)
| PosInf, Num y | Num y, PosInf => inf_times true y
| NegInf, Num y | Num y, NegInf => inf_times false y
| PosInf, PosInf | NegInf, NegInf => PosInf
| PosInf, NegInf | NegInf, PosInf => NegInf
end.

(** The quotient [a / b] when it is not a finite number, or when it is zero
  because the divisor is infinite; [None] when the quotient is the finite
  ratio of two integers. *)
Definition quotient_special (a b : number) : option number :=
match a, b with
| NaN, _ | _, NaN => Some NaN
| Num x, Num y =>
    if y =? 0 then
      Some (if 0 <? x then PosInf else if x <? 0 then NegInf else NaN)
    else None
| Num _, (PosInf | NegInf) => Some (Num 0)
| PosInf, Num y => Some (if y <? 0 then NegInf else PosInf)
| NegInf, Num y => Some (if y <? 0 then PosInf else NegInf)
| (PosInf | NegInf), (PosInf | NegInf) => Some NaN
end.

(** [Math.floor(a / b)]. *)
Definition floor_div (a b : number) : number :=
match quotient_special a b with
| Some q => q
| None =>
    match a, b with
    | Num x, Num y => Num (x / y)
    | _, _ => NaN
    end
end.

(** [Math.ceil(a / b)]. *)
Definition ceil_div (a b : number) : number :=
match quotient_special a b with
| Some q => q
| None =>
    match a, b with
    | Num x, Num y => Num (- ((- x) / y))
    | _, _ => NaN
    end
end.

(** [a <= b]; every comparison with [NaN] is false. *)
Definition nleb (a b : number) : bool :=
match a, b with
| NaN, _ | _, NaN => false
| Num x, Num y => x <=? y
| NegInf, _ | _, PosInf => true
| _, _ => false
end.

(** [Number.isNaN(a)]. *)
Definition isNaN (a : number) : bool :=
  match a with
  | NaN => true
  | _ => false
  end.

(** Truthiness of a number: [0] and [NaN] are falsy. *)
Definition truthy (a : number) : bool :=
match a with
| Num x => negb (x =? 0)
| NaN => false
| _ => true
end.

(** [o || d] for an optional number [o]: [undefined], [0] and [NaN] give [d]. *)
Definition or_else (o : option number) (d : number) : number :=
match o with
| Some p => if truthy p then p else d
| None => d
end.

End JS.
Import JS.

(* ================================================================== *)
(** ** Dates *)

(** A [Date] read through its local accessors: [getMonth] counts from 0. *)
Record Date : Type := mkDate {
  getFullYear : Z;
  getMonth : Z;
  getDate : Z;
  timeOfDay : Z
}.

Definition isLeapYear (y : Z) : bool :=
  (y mod 4 =? 0) && (negb (y mod 100 =? 0) || (y mod 400 =? 0)).

Definition daysInMonth (y m : Z) : Z :=
  if m =? 1 then (if isLeapYear y then 29 else 28)
  else if (m =? 3) || (m =? 5) || (m =? 8) || (m =? 10) then 30
  else 31.

(** A date the runtime can hold: fields in their calendar ranges. *)
Definition valid_date (d : Date) : Prop :=
  0 <= getMonth d < 12 /\
  1 <= getDate d <= daysInMonth (getFullYear d) (getMonth d) /\
  0 <= timeOfDay d < 86400000.

(** Comparison of two dates by their instants. *)
Definition Date_compare (a b : Date) : comparison :=
  match getFullYear a ?= getFullYear b with
  | Eq =>
      match getMonth a ?= getMonth b with
      | Eq =>
          match getDate a ?= getDate b with
          | Eq => timeOfDay a ?= timeOfDay b
          | c => c
          end
      | c => c
      end
  | c => c
  end.

(** [a <= b] on dates. *)
Definition Date_leb (a b : Date) : bool :=
  match Date_compare a b with Gt => false | _ => true end.

(** [a > b] on dates. *)
Definition Date_gtb (a b : Date) : bool :=
  match Date_compare a b with Gt => true | _ => false end.

Definition Date_lt (a b : Date) : Prop := Date_compare a b = Lt.

(** Modelled from the spec: [addMonths] is imported from the date-fns
    package, which is not part of the sources.  The specification describes
    it as calendar-month addition that preserves the day of the month with
    end-of-month clamping: the result lies [amount] calendar months after
    [date], on the same day of the month when the target month has that day
    and on its last day otherwise, at the same time of day.  An amount of
    zero gives the date back. *)
Definition addMonths (date : Date) (amount : Z) : Date :=
  if amount =? 0 then date
  else
    let dayOfMonth := getDate date in
    let index := getFullYear date * 12 + getMonth date + amount in
    let y := index / 12 in
    let m := index mod 12 in
    let days := daysInMonth y m in
    if days <=? dayOfMonth then mkDate y m days (timeOfDay date)
    else mkDate y m dayOfMonth (timeOfDay date).

(* ================================================================== *)
(** ** The data model of [types/rsu.ts] *)

Module VestingEvent.
Record t : Type := mk {
  date : Date;
  quantity : number;
  price : option number;
  priceError : option string;
  value : option number
}.
End VestingEvent.

Module RSUGrant.
Record t : Type := mk {
  grantDate : Date;
  quantity : number;
  grantPrice : number;
  symbol : string;
  currentPrice : option number;
  priceError : option string;
  vestingSchedule : list VestingEvent.t
}.
End RSUGrant.

Module StockPriceEntry.
Record t : Type := mk {
  symbol : string;
  date : Date;
  price : number;
  isCurrentPrice : option bool
}.
End StockPriceEntry.

(* ================================================================== *)
(** ** [utils/rsuCalculations.ts] *)

(** The object literal [{ date, quantity }] pushed by the generator. *)
Definition newEvent (d : Date) (q : number) : VestingEvent.t :=
  VestingEvent.mk d q None None None.

Section Generator.

Variable grantDate : Date.
Variables cliffMonths totalVestingMonths vestingFrequencyMonths : Z.
Variables sharesPerVesting remainingShares : number.

(** The quantity of a regular vesting event at [month]. *)
Definition regularQuantity (month : Z) : number :=
  if 0 <? cliffMonths then sharesPerVesting
  else if month =? totalVestingMonths
       then nadd sharesPerVesting remainingShares
       else sharesPerVesting.

(** The loop [for (month = startMonth; month <= totalVestingMonths;
    month += vestingFrequencyMonths)], one iteration per unit of fuel;
    [None] when the fuel runs out before the loop exits. *)
Fixpoint regularEvents (fuel : nat) (month : Z) : option (list VestingEvent.t) :=
  match fuel with
  | O => None
  | S fuel' =>
      if month <=? totalVestingMonths then
        option_map
          (cons (newEvent (addMonths grantDate month) (regularQuantity month)))
          (regularEvents fuel' (month + vestingFrequencyMonths))
      else Some []
  end.

End Generator.

(** [totalVestingEvents] of the generator. *)
Definition totalVestingEvents (totalVestingMonths cliffMonths vestingFrequencyMonths : Z)
  : number :=
  if 0 <? cliffMonths
  then nadd (floor_div (Num (totalVestingMonths - cliffMonths))
                       (Num vestingFrequencyMonths)) (Num 1)
  else ceil_div (Num totalVestingMonths) (Num vestingFrequencyMonths).

(** [generateVestingSchedule], every argument given (the source defaults
    the last three to 4, 12 and 1); [None] stands for a loop that never
    exits. *)
Definition generateVestingSchedule
    (grantDate : Date) (totalShares vestingPeriodYears cliffMonths
     vestingFrequencyMonths : Z) : option (list VestingEvent.t) :=
  let totalVestingMonths := vestingPeriodYears * 12 in
  let events :=
    totalVestingEvents totalVestingMonths cliffMonths vestingFrequencyMonths in
  let sharesPerVesting := floor_div (Num totalShares) events in
  let remainingShares :=
    nsub (Num totalShares) (nmul sharesPerVesting events) in
  let cliffEvent :=
    if 0 <? cliffMonths
    then [newEvent (addMonths grantDate cliffMonths)
                   (nadd sharesPerVesting remainingShares)]
    else [] in
  let startMonth :=
    if 0 <? cliffMonths then cliffMonths + vestingFrequencyMonths
    else vestingFrequencyMonths in
  option_map (app cliffEvent)
    (regularEvents grantDate cliffMonths totalVestingMonths
       vestingFrequencyMonths sharesPerVesting remainingShares
       (S (Z.to_nat (totalVestingMonths - startMonth + 1))) startMonth).

(** [calculateTotalVestedShares(grant, asOfDate)]. *)
Definition calculateTotalVestedShares (grant : RSUGrant.t) (asOfDate : Date)
  : number :=
  fold_left (fun total event => nadd total (VestingEvent.quantity event))
    (filter (fun event => Date_leb (VestingEvent.date event) asOfDate)
       (RSUGrant.vestingSchedule grant))
    (Num 0).

(** [calculateTotalValue(grant, currentPrice)]. *)
Definition calculateTotalValue (grant : RSUGrant.t) (currentPrice : number)
  : number :=
  fold_left
    (fun total event =>
       nadd total
         (nmul (VestingEvent.quantity event)
               (or_else (VestingEvent.price event) currentPrice)))
    (RSUGrant.vestingSchedule grant)
    (Num 0).

(* ================================================================== *)
(** ** The environment of the price client

    The world outside the program is an oracle: what the clock shows at each
    reading and what the network answers to each request, both indexed by
    how many readings or requests came before.  The program's own state
    records the readings and requests made, and the stock-price table of the
    larger calculator component. *)

(** The two requests of [utils/stockPrices.ts], without the text of the URL. *)
Inductive Request : Type :=
| CurrentQuote (symbol : string)
| HistoricalQuote (symbol : string) (date : Date).

(** What the code reads of [data.chart.result[0]]. *)
Record ChartResult : Type := mkChartResult {
  (** [meta?.regularMarketPrice]; [None] when undefined or null *)
  regularMarketPrice : option number;
  (** [indicators.quote[0]]: [None] when reading it raises an error,
      otherwise [close?.[0]], itself [None] when null or undefined *)
  quoteClose : option (option number);
  (** [indicators?.adjclose?.[0]?.adjclose?.[0]] *)
  adjClose : option number
}.

(** The body of a response: [response.json()] rejects, or gives data whose
    [chart?.result?.[0]] is absent or present. *)
Inductive Body : Type :=
| BadJson
| Json (result0 : option ChartResult).

Record Response : Type := mkResponse {
  ok : bool;
  status : Z;
  body : Body
}.

Record World : Type := mkWorld {
  (** the date shown by the [k]-th [new Date()] *)
  clock : nat -> Date;
  (** the answer to the [k]-th [fetch]; [None] when the fetch rejects *)
  network : nat -> Request -> option Response
}.

Record State : Type := mkState {
  clockReads : nat;
  requests : list Request;
  stockPrices : list StockPriceEntry.t
}.

Inductive Outcome (A : Type) : Type :=
| Return (a : A)
| Throw (message : string).
Arguments Return {A} a.
Arguments Throw {A} message.

(** A computation of the program: it ends by returning or by throwing, and
    leaves a state. *)
Definition M (A : Type) : Type := State -> Outcome A * State.

Definition ret {A} (a : A) : M A := fun s => (Return a, s).

Definition throw {A} (message : string) : M A := fun s => (Throw message, s).

Definition bind {A B} (m : M A) (k : A -> M B) : M B :=
  fun s =>
    match m s with
    | (Return a, s') => k a s'
    | (Throw e, s') => (Throw e, s')
    end.

(** [try { m } catch (error) { handler(error) }]. *)
Definition try_catch {A} (m : M A) (handler : string -> M A) : M A :=
  fun s =>
    match m s with
    | (Return a, s') => (Return a, s')
    | (Throw e, s') => handler e s'
    end.

Notation "x <- m ;; k" := (bind m (fun x => k))
  (at level 61, m at next level, right associativity).

(** [array.map(async ...)] under [Promise.all]: the callbacks are started in
    the order of the array. *)
Fixpoint mapM {A B} (f : A -> M B) (l : list A) : M (list B) :=
  match l with
  | [] => ret []
  | x :: l' =>
      y <- f x ;;
      ys <- mapM f l' ;;
      ret (y :: ys)
  end.

(** The text of a number in a template literal, for an integer. *)
Definition string_of_Z (z : Z) : string :=
  NilEmpty.string_of_int (Z.to_int z).

(** The message [`HTTP error! status: ${response.status}`]. *)
Definition httpError (response : Response) : string :=
  String.append "HTTP error! status: " (string_of_Z (status response)).

Section Client.

Variable world : World.

(** [new Date()]. *)
Definition newDate : M Date :=
  fun s =>
    (Return (clock world (clockReads s)),
     mkState (S (clockReads s)) (requests s) (stockPrices s)).

(** [await fetch(url)]. *)
Definition fetch (request : Request) : M Response :=
  fun s =>
    let s' := mkState (clockReads s) (requests s ++ [request])%list (stockPrices s) in
    match network world (List.length (requests s)) request with
    | Some response => (Return response, s')
    | None => (Throw "Failed to fetch", s')
    end.

(** [await response.json()]. *)
Definition json (response : Response) : M (option ChartResult) :=
  match body response with
  | BadJson => throw "Unexpected token in JSON"
  | Json result0 => ret result0
  end.

(** [setStockPrices(update)]. *)
Definition setStockPrices
    (update : list StockPriceEntry.t -> list StockPriceEntry.t) : M unit :=
  fun s =>
    (Return tt, mkState (clockReads s) (requests s) (update (stockPrices s))).

(** ** [utils/stockPrices.ts] *)

(** [fetchStockPrice(symbol)]; the handler logs and throws the error again. *)
Definition fetchStockPrice (symbol : string) : M number :=
  try_catch
    (response <- fetch (CurrentQuote symbol) ;;
     if negb (ok response) then throw (httpError response)
     else
       data <- json response ;;
       match data with
       | Some result =>
           match regularMarketPrice result with
           | Some price =>
               if truthy price then ret price
               else throw "Invalid data format from Yahoo Finance API"
           | None => throw "Invalid data format from Yahoo Finance API"
           end
       | None => throw "Invalid data format from Yahoo Finance API"
       end)
    (fun error => throw error).

(** [fetchHistoricalPrice(symbol, date)]; [Return None] is the [null] of
    the source. *)
Definition fetchHistoricalPrice (symbol : string) (date : Date)
  : M (option number) :=
  try_catch
    (now <- newDate ;;
     if Date_gtb date now then ret None
     else
       response <- fetch (HistoricalQuote symbol date) ;;
       if negb (ok response) then throw (httpError response)
       else
         data <- json response ;;
         match data with
         | Some result =>
             match quoteClose result with
             | None => throw "Cannot read properties of undefined"
             | Some (Some close) => ret (Some close)
             | Some None =>
                 match adjClose result with
                 | Some adj => ret (Some adj)
                 | None =>
                     match regularMarketPrice result with
                     | Some price =>
                         if truthy price then ret (Some price)
                         else throw "No price data available for this date"
                     | None => throw "No price data available for this date"
                     end
                 end
             end
         | None => throw "No price data available for this date"
         end)
    (fun error => throw error).

(** ** [updateVestPrices] *)

(** The callback of [grant.vestingSchedule.map] in [updateVestPrices]. *)
Definition updateEvent (grant : RSUGrant.t) (currentPrice : number)
    (event : VestingEvent.t) : M VestingEvent.t :=
  now <- newDate ;;
  let isVested := Date_leb (VestingEvent.date event) now in
  fetched <-
    try_catch
      (if isVested then
         historicalPrice <-
           fetchHistoricalPrice (RSUGrant.symbol grant) (VestingEvent.date event) ;;
         ret (historicalPrice, None)
       else ret (Some currentPrice, None))
      (fun _ => ret (None, Some "Failed to fetch price"%string)) ;;
  let price : option number := fst fetched in
  let priceError : option string := snd fetched in
  ret (VestingEvent.mk
         (VestingEvent.date event)
         (VestingEvent.quantity event)
         price
         priceError
         (Some (nmul (VestingEvent.quantity event)
                     (or_else price (RSUGrant.grantPrice grant))))).

(** The grant [{ ...grant, priceError: 'Failed to fetch prices' }]. *)
Definition withPriceError (grant : RSUGrant.t) : RSUGrant.t :=
  RSUGrant.mk
    (RSUGrant.grantDate grant) (RSUGrant.quantity grant)
    (RSUGrant.grantPrice grant) (RSUGrant.symbol grant)
    (RSUGrant.currentPrice grant)
    (Some "Failed to fetch prices"%string)
    (RSUGrant.vestingSchedule grant).

(** The grant [{ ...grant, currentPrice, vestingSchedule: updatedSchedule }]. *)
Definition withPrices (grant : RSUGrant.t) (currentPrice : number)
    (updatedSchedule : list VestingEvent.t) : RSUGrant.t :=
  RSUGrant.mk
    (RSUGrant.grantDate grant) (RSUGrant.quantity grant)
    (RSUGrant.grantPrice grant) (RSUGrant.symbol grant)
    (Some currentPrice)
    (RSUGrant.priceError grant)
    updatedSchedule.

End Client.

(** [components/RSUCalculator.tsx]. *)
Module RSUCalculator.

Definition updateVestPrices (world : World) (grant : RSUGrant.t)
  : M RSUGrant.t :=
  try_catch
    (currentPrice <- fetchStockPrice world (RSUGrant.symbol grant) ;;
     updatedSchedule <-
       mapM (updateEvent world grant currentPrice)
            (RSUGrant.vestingSchedule grant) ;;
     ret (withPrices grant currentPrice updatedSchedule))
    (fun _ => ret (withPriceError grant)).

End RSUCalculator.

(** The larger calculator component, which also keeps a table of stock
    prices and records the current price in it. *)
Module CompensationCalculator.

(** The updater passed to [setStockPrices]. *)
Definition recordCurrentPrice (symbol : string) (today : Date)
    (currentPrice : number) (prev : list StockPriceEntry.t)
  : list StockPriceEntry.t :=
  (filter
    (fun p =>
       negb (String.eqb (StockPriceEntry.symbol p) symbol
             && match StockPriceEntry.isCurrentPrice p with
                | Some b => b
                | None => false
                end))
    prev
  ++ [StockPriceEntry.mk symbol today currentPrice (Some true)])%list.

Definition updateVestPrices (world : World) (grant : RSUGrant.t)
  : M RSUGrant.t :=
  try_catch
    (currentPrice <- fetchStockPrice world (RSUGrant.symbol grant) ;;
     today <- newDate world ;;
     _ <- setStockPrices
            (recordCurrentPrice (RSUGrant.symbol grant) today currentPrice) ;;
     updatedSchedule <-
       mapM (updateEvent world grant currentPrice)
            (RSUGrant.vestingSchedule grant) ;;
     ret (withPrices grant currentPrice updatedSchedule))
    (fun _ => ret (withPriceError grant)).

End CompensationCalculator.

(* ================================================================== *)
(** ** Vocabulary of the specification *)

(** The inputs the specification calls valid. *)
Definition validInputs (totalShares vestingPeriodYears cliffMonths
                        vestingFrequencyMonths : Z) : Prop :=
  1 <= totalShares /\ 1 <= vestingPeriodYears /\
  0 <= cliffMonths /\ 1 <= vestingFrequencyMonths.

(** [Number.MAX_SAFE_INTEGER], 2^53 - 1: up to this magnitude every integer
    is a binary64 number and the next integer is one too. *)
Definition MAX_SAFE_INTEGER : Z := 9007199254740991.

(** Inputs small enough for every value the generator computes to be a safe
    integer: the share count, the months of the period, the cliff and the
    frequency together do not exceed [MAX_SAFE_INTEGER]. *)
Definition safeInputs (totalShares vestingPeriodYears cliffMonths
                       vestingFrequencyMonths : Z) : Prop :=
  totalShares + vestingPeriodYears * 12 + cliffMonths + vestingFrequencyMonths
  <= MAX_SAFE_INTEGER.

(** The months [month, month + step, ...], [count] of them. *)
Fixpoint monthsFrom (month step : Z) (count : nat) : list Z :=
  match count with
  | O => []
  | S count' => month :: monthsFrom (month + step) step count'
  end.

(** How many times the loop of the generator runs from [startMonth]. *)
Definition iterations (startMonth totalVestingMonths step : Z) : nat :=
  if startMonth <=? totalVestingMonths
  then Z.to_nat ((totalVestingMonths - startMonth) / step + 1)
  else O.

(** The tranche the loop of the generator emits at [month]. *)
Definition regularEvent (grantDate : Date) (cliffMonths totalVestingMonths : Z)
    (sharesPerVesting remainingShares : number) (month : Z) : VestingEvent.t :=
  newEvent (addMonths grantDate month)
    (regularQuantity cliffMonths totalVestingMonths sharesPerVesting
       remainingShares month).

(** The sum of a list of numbers. *)
Definition sum_numbers (l : list number) : number :=
  fold_right nadd (Num 0) l.

Definition quantities (l : list VestingEvent.t) : list number :=
  map VestingEvent.quantity l.

Definition dates (l : list VestingEvent.t) : list Date :=
  map VestingEvent.date l.

(** The price the specification gives a tranche: its stored price when
    present, the fallback price otherwise. *)
Definition tranchePrice_spec (event : VestingEvent.t) (fallbackPrice : number)
  : number :=
  match VestingEvent.price event with
  | Some p => p
  | None => fallbackPrice
  end.

(** [totalValue] in the words of the specification. *)
Definition totalValue_spec (grant : RSUGrant.t) (fallbackPrice : number)
  : number :=
  sum_numbers
    (map (fun event =>
            nmul (VestingEvent.quantity event)
                 (tranchePrice_spec event fallbackPrice))
         (RSUGrant.vestingSchedule grant)).

(** The price the code gives a tranche: its stored price when present and
    neither zero nor [NaN], the fallback price otherwise. *)
Definition tranchePrice (event : VestingEvent.t) (fallbackPrice : number)
  : number :=
  match VestingEvent.price event with
  | Some (Num 0) | Some NaN | None => fallbackPrice
  | Some p => p
  end.

(** A tranche of the first schedule and the tranche at the same place of the
    second have the same date and the same quantity. *)
Definition sameTranche (before after : VestingEvent.t) : Prop :=
  VestingEvent.date after = VestingEvent.date before /\
  VestingEvent.quantity after = VestingEvent.quantity before.

(** The number of vesting events, the base quantity and the remainder of the
    specification, where they are integers. *)
Definition eventCount (totalVestingMonths cliffMonths vestingFrequencyMonths : Z)
  : Z :=
  if 0 <? cliffMonths
  then (totalVestingMonths - cliffMonths) / vestingFrequencyMonths + 1
  else - ((- totalVestingMonths) / vestingFrequencyMonths).

Definition baseShares (totalShares count : Z) : Z := totalShares / count.

Definition remainder (totalShares count : Z) : Z :=
  totalShares - baseShares totalShares count * count.

(** The month of the first regular tranche. *)
Definition startMonthOf (cliffMonths vestingFrequencyMonths : Z) : Z :=
  if 0 <? cliffMonths then cliffMonths + vestingFrequencyMonths
  else vestingFrequencyMonths.

(** The month offsets of the tranches of a schedule, in order. *)
Definition offsets (totalVestingMonths cliffMonths vestingFrequencyMonths : Z)
  : list Z :=
  (if 0 <? cliffMonths then [cliffMonths] else [])
  ++ monthsFrom (startMonthOf cliffMonths vestingFrequencyMonths)
       vestingFrequencyMonths
       (iterations (startMonthOf cliffMonths vestingFrequencyMonths)
          totalVestingMonths vestingFrequencyMonths).

(** The quantity of the tranche at [month] in a schedule of integer
    quantities [base] and [rest]. *)
Definition quantityAt (cliffMonths totalVestingMonths base rest month : Z) : Z :=
  if 0 <? cliffMonths
  then (if month =? cliffMonths then base + rest else base)
  else (if month =? totalVestingMonths then base + rest else base).

(** What [updateVestPrices] keeps of a grant. *)
Definition sameGrantFrame (before after : RSUGrant.t) : Prop :=
  List.length (RSUGrant.vestingSchedule after)
  = List.length (RSUGrant.vestingSchedule before) /\
  Forall2 sameTranche (RSUGrant.vestingSchedule before)
          (RSUGrant.vestingSchedule after) /\
  RSUGrant.grantDate after = RSUGrant.grantDate before /\
  RSUGrant.quantity after = RSUGrant.quantity before /\
  RSUGrant.grantPrice after = RSUGrant.grantPrice before /\
  RSUGrant.symbol after = RSUGrant.symbol before.

(** A tranche whose quantity is a non-negative integer. *)
Definition nonnegTranche (event : VestingEvent.t) : Prop :=
  exists q, VestingEvent.quantity event = Num q /\ 0 <= q.

(** Sample data. *)
Definition d20240101 : Date := mkDate 2024 0 1 0.

Definition grantWith (q : number) (schedule : list VestingEvent.t) : RSUGrant.t :=
  RSUGrant.mk d20240101 q (Num 1000) "ACME" None None schedule.

Definition scheduleOf (o : option (list VestingEvent.t)) : list VestingEvent.t :=
  match o with Some l => l | None => [] end.

(** A world without a network: every fetch rejects. *)
Definition offline : World := mkWorld (fun _ => d20240101) (fun _ _ => None).

Definition initialState : State := mkState O [] [].

(* ================================================================== *)
(** ** Vocabulary of the further properties *)

(** What the callback of [updateVestPrices] leaves on a tranche: a value
    computed from the price it stored, and an error only without a price. *)
Definition pricedTranche (grantPrice : number) (event : VestingEvent.t) : Prop :=
  VestingEvent.value event
  = Some (nmul (VestingEvent.quantity event)
               (or_else (VestingEvent.price event) grantPrice)) /\
  (VestingEvent.priceError event = None \/
   (VestingEvent.priceError event = Some "Failed to fetch price"%string /\
    VestingEvent.price event = None)).

(** The tranche [event] priced at [currentPrice] without an error. *)
Definition pricedAtCurrent (currentPrice : number) (event : VestingEvent.t)
  : VestingEvent.t :=
  VestingEvent.mk (VestingEvent.date event) (VestingEvent.quantity event)
    (Some currentPrice) None
    (Some (nmul (VestingEvent.quantity event) currentPrice)).

(** An entry of the price table that is the recorded current price of
    [symbol]. *)
Definition isCurrentPriceOf (symbol : string) (p : StockPriceEntry.t) : bool :=
  String.eqb (StockPriceEntry.symbol p) symbol
  && match StockPriceEntry.isCurrentPrice p with
     | Some b => b
     | None => false
     end.

(** ** The calculator components, further *)

(** [array.sort(compare)], a stable sort: [before a b] stands for
    [compare(a, b) <= 0].  Inserting each element in front of the first
    one it may precede gives the order every stable sort gives. *)
Fixpoint insertSorted {A} (before : A -> A -> bool) (x : A) (l : list A)
  : list A :=
  match l with
  | [] => [x]
  | y :: l' =>
      if before x y then x :: y :: l' else y :: insertSorted before x l'
  end.

Fixpoint sortBy {A} (before : A -> A -> bool) (l : list A) : list A :=
  match l with
  | [] => []
  | x :: l' => insertSorted before x (sortBy before l')
  end.

(** [array.filter((element, index) => keep(element, index))], the index
    counted from [index]. *)
Fixpoint filterIndexed {A} (keep : A -> Z -> bool) (index : Z) (l : list A)
  : list A :=
  match l with
  | [] => []
  | x :: l' =>
      if keep x index then x :: filterIndexed keep (index + 1) l'
      else filterIndexed keep (index + 1) l'
  end.

(** A tranche with the fields of its grant, as the tables show it:
    [{ ...event, symbol, grantPrice, currentPrice }]. *)
Module GrantEvent.
Record t : Type := mk {
  event : VestingEvent.t;
  symbol : string;
  grantPrice : number;
  currentPrice : option number
}.
Definition date (row : t) : Date := VestingEvent.date (event row).
End GrantEvent.

(** [allVestingEvents] of both components: the tranches of all grants,
    sorted by date. *)
Definition allVestingEvents (grants : list RSUGrant.t) : list GrantEvent.t :=
  sortBy (fun a b => Date_leb (GrantEvent.date a) (GrantEvent.date b))
    (flat_map
       (fun grant =>
          map (fun event =>
                 GrantEvent.mk event (RSUGrant.symbol grant)
                   (RSUGrant.grantPrice grant) (RSUGrant.currentPrice grant))
              (RSUGrant.vestingSchedule grant))
       grants).

(** [handleGrantDelete(grantIndex)] and [handleStockPriceDelete(index)],
    as functions of the list they update. *)
Definition handleGrantDelete (grantIndex : Z) (prev : list RSUGrant.t)
  : list RSUGrant.t :=
  filterIndexed (fun _ index => negb (index =? grantIndex)) 0 prev.

Definition handleStockPriceDelete (index : Z) (prev : list StockPriceEntry.t)
  : list StockPriceEntry.t :=
  filterIndexed (fun _ i => negb (i =? index)) 0 prev.

(** The value a row of the vesting table of [components/RSUCalculator.tsx]
    shows for a tranche, [now] being the date of the rendering. *)
Definition rowValue (now : Date) (row : GrantEvent.t) : number :=
  let isVested := Date_leb (GrantEvent.date row) now in
  let stockPrice :=
    if isVested
    then or_else (VestingEvent.price (GrantEvent.event row))
                 (GrantEvent.grantPrice row)
    else or_else (GrantEvent.currentPrice row) (GrantEvent.grantPrice row) in
  nmul (VestingEvent.quantity (GrantEvent.event row)) stockPrice.

(** [getPriceForDate(symbol, date)] of the larger component, over its
    table of stock prices. *)
Definition getPriceForDate (stockPrices : list StockPriceEntry.t)
    (symbol : string) (date : Date) : option number :=
  let symbolPrices :=
    sortBy (fun a b =>
              Date_leb (StockPriceEntry.date b) (StockPriceEntry.date a))
      (filter (fun p => String.eqb (StockPriceEntry.symbol p) symbol)
              stockPrices) in
  option_map StockPriceEntry.price
    (find (fun p => Date_leb (StockPriceEntry.date p) date) symbolPrices).

(** [a > b] on numbers; every comparison with [NaN] is false. *)
Definition ngtb (a b : number) : bool :=
  match a, b with
  | NaN, _ | _, NaN => false
  | Num x, Num y => y <? x
  | PosInf, PosInf | NegInf, _ | Num _, PosInf => false
  | PosInf, _ | Num _, NegInf => true
  end.

(** The salary entries of the larger component. *)
Inductive ChangeType : Type := initial | increase | decrease.

Module SalaryEntry.
Record t : Type := mk {
  amount : number;
  paymentDay : number;
  startDate : Date;
  description : string;
  id : Z;
  previousAmount : option number;
  changeType : ChangeType
}.
End SalaryEntry.

(** The salary form, its text fields already converted as the handler
    converts them ([Number(...)], [new Date(...)]). *)
Module SalaryFormData.
Record t : Type := mk {
  amount : number;
  paymentDay : number;
  startDate : Date;
  description : string;
  previousSalaryId : option Z;
  editingSalaryId : option Z
}.
End SalaryFormData.

(** The part of the component state the salary handlers read and write. *)
Record SalaryState : Type := mkSalaryState {
  salaries : list SalaryEntry.t;
  nextSalaryId : Z
}.

(** Truthiness of an optional id: [undefined] and [0] are falsy. *)
Definition truthyId (o : option Z) : option Z :=
  match o with
  | Some i => if i =? 0 then None else Some i
  | None => None
  end.

(** [handleSalarySubmit], on the salary state. *)
Definition handleSalarySubmit (form : SalaryFormData.t) (st : SalaryState)
  : SalaryState :=
  let newAmount := SalaryFormData.amount form in
  match truthyId (SalaryFormData.editingSalaryId form) with
  | Some editing =>
      mkSalaryState
        (map (fun salary =>
                if SalaryEntry.id salary =? editing
                then SalaryEntry.mk newAmount
                       (SalaryFormData.paymentDay form)
                       (SalaryFormData.startDate form)
                       (SalaryFormData.description form)
                       (SalaryEntry.id salary)
                       (SalaryEntry.previousAmount salary)
                       (SalaryEntry.changeType salary)
                else salary)
             (salaries st))
        (nextSalaryId st)
  | None =>
      let previousSalary :=
        match truthyId (SalaryFormData.previousSalaryId form) with
        | Some previous =>
            find (fun s => SalaryEntry.id s =? previous) (salaries st)
        | None => last (map Some (salaries st)) None
        end in
      let newSalary :=
        SalaryEntry.mk newAmount
          (SalaryFormData.paymentDay form)
          (SalaryFormData.startDate form)
          (SalaryFormData.description form)
          (nextSalaryId st)
          (option_map SalaryEntry.amount previousSalary)
          (match previousSalary with
           | Some previous =>
               if ngtb newAmount (SalaryEntry.amount previous)
               then increase else decrease
           | None => initial
           end) in
      mkSalaryState (salaries st ++ [newSalary]) (nextSalaryId st + 1)
  end.

(** [handleSalaryDelete(salaryId)], on the salary state. *)
Definition handleSalaryDelete (salaryId : Z) (st : SalaryState) : SalaryState :=
  mkSalaryState
    (filter (fun s => negb (SalaryEntry.id s =? salaryId)) (salaries st))
    (nextSalaryId st).

(** The ids of the salaries are distinct and below the next id. *)
Definition salaryIdsFresh (st : SalaryState) : Prop :=
  Forall (fun s => SalaryEntry.id s < nextSalaryId st) (salaries st) /\
  NoDup (map SalaryEntry.id (salaries st)).

(* ================================================================== *)
(** ** Arithmetic of numbers *)

Lemma nadd_comm (a b : number) : nadd a b = nadd b a.
Proof. destruct a, b; simpl; try reflexivity; f_equal; lia. Qed.

Lemma nadd_assoc (a b c : number) : nadd a (nadd b c) = nadd (nadd a b) c.
Proof. destruct a, b, c; simpl; try reflexivity; f_equal; lia. Qed.

Lemma nadd_0_l (a : number) : nadd (Num 0) a = a.
Proof. destruct a; reflexivity. Qed.

Lemma nadd_0_r (a : number) : nadd a (Num 0) = a.
Proof. rewrite nadd_comm. apply nadd_0_l. Qed.

Lemma floor_div_Num (a b : Z) : b <> 0 -> floor_div (Num a) (Num b) = Num (a / b).
Proof.
  intros Hb. unfold floor_div, quotient_special.
  destruct (Z.eqb_spec b 0); [contradiction | reflexivity].
Qed.

Lemma ceil_div_Num (a b : Z) :
  b <> 0 -> ceil_div (Num a) (Num b) = Num (- ((- a) / b)).
Proof.
  intros Hb. unfold ceil_div, quotient_special.
  destruct (Z.eqb_spec b 0); [contradiction | reflexivity].
Qed.

Lemma sum_numbers_Num (qs : list Z) :
  sum_numbers (map Num qs) = Num (fold_right Z.add 0 qs).
Proof.
  induction qs as [|q qs IH]; [reflexivity|].
  change (nadd (Num q) (sum_numbers (map Num qs)) = Num (q + fold_right Z.add 0 qs)).
  rewrite IH. reflexivity.
Qed.

(** A left fold of additions is the sum added to the start value. *)
Lemma fold_left_nadd {A} (f : A -> number) (l : list A) (a : number) :
  fold_left (fun total x => nadd total (f x)) l a
  = nadd a (sum_numbers (map f l)).
Proof.
  revert a. induction l as [|x l IH]; intros a.
  - simpl. now rewrite nadd_0_r.
  - change (fold_left (fun total y => nadd total (f y)) l (nadd a (f x))
            = nadd a (nadd (f x) (sum_numbers (map f l)))).
    rewrite IH. now rewrite nadd_assoc.
Qed.

(* ================================================================== *)
(** ** The loop of the generator *)

Section Loop.

Variable grantDate : Date.
Variables cliffMonths totalVestingMonths vestingFrequencyMonths : Z.
Variables sharesPerVesting remainingShares : number.

Local Abbreviation loop :=
  (regularEvents grantDate cliffMonths totalVestingMonths
     vestingFrequencyMonths sharesPerVesting remainingShares).
Local Abbreviation event :=
  (regularEvent grantDate cliffMonths totalVestingMonths
     sharesPerVesting remainingShares).

(** With a positive step, [count] iterations that stay within the period
    followed by one that leaves it use [count + 1] units of fuel. *)
Lemma regularEvents_run (count : nat) :
  forall (fuel : nat) (month : Z),
    1 <= vestingFrequencyMonths ->
    (count < fuel)%nat ->
    totalVestingMonths < month + Z.of_nat count * vestingFrequencyMonths ->
    (count <> O ->
     month + (Z.of_nat count - 1) * vestingFrequencyMonths <= totalVestingMonths) ->
    loop fuel month
    = Some (map event (monthsFrom month vestingFrequencyMonths count)).
Proof.
  induction count as [|count IH]; intros fuel month Hf Hfuel Hout Hin.
  - destruct fuel as [|fuel]; [lia|]. simpl.
    destruct (Z.leb_spec month totalVestingMonths); [lia | reflexivity].
  - destruct fuel as [|fuel]; [lia|]. simpl.
    assert (month <= totalVestingMonths) as Hle
      by (specialize (Hin ltac:(lia)); nia).
    destruct (Z.leb_spec month totalVestingMonths); [|lia].
    rewrite (IH fuel (month + vestingFrequencyMonths))
      by (try lia; intros Hc; specialize (Hin ltac:(lia)); nia).
    reflexivity.
Qed.

Lemma iterations_bounds (startMonth : Z) :
  1 <= vestingFrequencyMonths ->
  let count := iterations startMonth totalVestingMonths vestingFrequencyMonths in
  totalVestingMonths < startMonth + Z.of_nat count * vestingFrequencyMonths /\
  (count <> O ->
   startMonth + (Z.of_nat count - 1) * vestingFrequencyMonths <= totalVestingMonths) /\
  (count < S (Z.to_nat (totalVestingMonths - startMonth + 1)))%nat.
Proof.
  intros Hf count. subst count. unfold iterations.
  destruct (Z.leb_spec startMonth totalVestingMonths) as [Hle|Hgt].
  - set (d := totalVestingMonths - startMonth).
    assert (0 <= d) by (subst d; lia).
    pose proof (Z.div_pos d vestingFrequencyMonths ltac:(lia) ltac:(lia)) as Hq.
    pose proof (Z.mul_div_le d vestingFrequencyMonths ltac:(lia)) as Hlo.
    pose proof (Z.mul_succ_div_gt d vestingFrequencyMonths ltac:(lia)) as Hhi.
    assert (d / vestingFrequencyMonths <= d) by nia.
    rewrite Z2Nat.id by lia.
    repeat split; try (intros _); try nia.
  - simpl. repeat split; try lia.
Qed.

(** With a step that is not positive the loop never leaves the period. *)
Lemma regularEvents_diverges (fuel : nat) :
  forall month,
    vestingFrequencyMonths <= 0 -> month <= totalVestingMonths ->
    loop fuel month = None.
Proof.
  induction fuel as [|fuel IH]; intros month Hf Hle; simpl.
  - reflexivity.
  - destruct (Z.leb_spec month totalVestingMonths); [|lia].
    rewrite IH by lia. reflexivity.
Qed.

End Loop.

(* ================================================================== *)
(** ** The schedule in closed form *)

Lemma monthsFrom_length (month step : Z) (count : nat) :
  List.length (monthsFrom month step count) = count.
Proof.
  revert month. induction count as [|count IH]; intros month; simpl;
    [reflexivity | now rewrite IH].
Qed.

Lemma monthsFrom_lower (step : Z) (count : nat) :
  forall month, 1 <= step ->
    Forall (fun m => month <= m) (monthsFrom month step count).
Proof.
  induction count as [|count IH]; intros month Hs; simpl; constructor.
  - lia.
  - eapply Forall_impl; [|apply (IH (month + step) Hs)].
    simpl. intros m Hm. lia.
Qed.

Lemma monthsFrom_sorted (step : Z) (count : nat) :
  forall month, 1 <= step ->
    StronglySorted Z.lt (monthsFrom month step count).
Proof.
  induction count as [|count IH]; intros month Hs; simpl; constructor.
  - apply IH, Hs.
  - eapply Forall_impl; [|apply (monthsFrom_lower step count (month + step) Hs)].
    simpl. intros m Hm. lia.
Qed.

(** The number of regular tranches after a cliff within the period. *)
Lemma iterations_cliff (T c f : Z) :
  1 <= f -> c <= T ->
  Z.of_nat (iterations (c + f) T f) = (T - c) / f.
Proof.
  intros Hf Hc. unfold iterations.
  destruct (Z.leb_spec (c + f) T) as [Hle|Hgt].
  - replace (T - (c + f)) with (T - c + (-1) * f) by lia.
    rewrite Z.div_add by lia.
    pose proof (Z.div_le_lower_bound (T - c) f 1 ltac:(lia) ltac:(lia)).
    rewrite Z2Nat.id by lia. lia.
  - rewrite Z.div_small by lia. reflexivity.
Qed.

(** The number of tranches of a schedule without a cliff. *)
Lemma iterations_no_cliff (T f : Z) :
  1 <= f -> 0 <= T ->
  Z.of_nat (iterations f T f) = T / f.
Proof.
  intros Hf HT.
  pose proof (iterations_cliff T 0 f Hf HT) as H.
  now rewrite Z.add_0_l, Z.sub_0_r in H.
Qed.

Lemma totalVestingEvents_Num (T c f : Z) :
  1 <= f -> totalVestingEvents T c f = Num (eventCount T c f).
Proof.
  intros Hf. unfold totalVestingEvents, eventCount.
  destruct (0 <? c).
  - rewrite floor_div_Num by lia. reflexivity.
  - apply ceil_div_Num. lia.
Qed.

Lemma eventCount_pos (T c f : Z) :
  1 <= f -> 1 <= T -> 0 <= c <= T -> 1 <= eventCount T c f.
Proof.
  intros Hf HT Hc. unfold eventCount.
  destruct (Z.ltb_spec 0 c).
  - pose proof (Z.div_pos (T - c) f ltac:(lia) ltac:(lia)). lia.
  - pose proof (Z.div_lt_upper_bound (- T) f 0 ltac:(lia) ltac:(lia)). lia.
Qed.

(** [generateVestingSchedule] returns for every positive frequency, and the
    schedule is the cliff tranche, if any, followed by one regular tranche
    per month of the loop. *)
Lemma generateVestingSchedule_closed
    (grantDate : Date) (totalShares years c f : Z) :
  1 <= f ->
  let T := years * 12 in
  let events := totalVestingEvents T c f in
  let sharesPerVesting := floor_div (Num totalShares) events in
  let remainingShares := nsub (Num totalShares) (nmul sharesPerVesting events) in
  generateVestingSchedule grantDate totalShares years c f
  = Some
      ((if 0 <? c
        then [newEvent (addMonths grantDate c)
                (nadd sharesPerVesting remainingShares)]
        else [])
       ++ map (regularEvent grantDate c T sharesPerVesting remainingShares)
            (monthsFrom (startMonthOf c f) f
               (iterations (startMonthOf c f) T f))).
Proof.
  intros Hf T events sharesPerVesting remainingShares.
  unfold generateVestingSchedule.
  fold T. fold events. fold sharesPerVesting. fold remainingShares.
  fold (startMonthOf c f).
  destruct (iterations_bounds T f (startMonthOf c f) Hf) as (Hout & Hin & Hfuel).
  rewrite (regularEvents_run grantDate c T f sharesPerVesting remainingShares
             (iterations (startMonthOf c f) T f)) by assumption.
  reflexivity.
Qed.

(** A loop that cannot advance never returns, and that is the only way
    for the generator not to return. *)
Lemma generateVestingSchedule_diverges
    (grantDate : Date) (totalShares years c f : Z) :
  generateVestingSchedule grantDate totalShares years c f = None
  <-> f <= 0 /\ startMonthOf c f <= years * 12.
Proof.
  split.
  - intros Hnone. destruct (Z.le_gt_cases f 0) as [Hf|Hf].
    + split; [assumption|].
      destruct (Z.le_gt_cases (startMonthOf c f) (years * 12)) as [|Hgt];
        [assumption|].
      unfold generateVestingSchedule in Hnone. fold (startMonthOf c f) in Hnone.
      simpl regularEvents in Hnone.
      destruct (Z.leb_spec (startMonthOf c f) (years * 12)); [lia|].
      discriminate Hnone.
    + rewrite generateVestingSchedule_closed in Hnone by lia. discriminate.
  - intros [Hf Hle]. unfold generateVestingSchedule. fold (startMonthOf c f).
    rewrite regularEvents_diverges by assumption. reflexivity.
Qed.

(** ** Schedules whose number of events is positive *)

Section Domain.

Variable grantDate : Date.
Variables totalShares years c f : Z.
Hypothesis frequency_pos : 1 <= f.
Hypothesis years_pos : 1 <= years.
Hypothesis cliff_in_period : 0 <= c <= years * 12.

Local Abbreviation T := (years * 12).
Local Abbreviation k := (eventCount (years * 12) c f).
Local Abbreviation base := (baseShares totalShares (eventCount (years * 12) c f)).
Local Abbreviation rest := (remainder totalShares (eventCount (years * 12) c f)).

Lemma sharesPerVesting_Num :
  floor_div (Num totalShares) (totalVestingEvents T c f) = Num base.
Proof.
  rewrite totalVestingEvents_Num by assumption.
  pose proof (eventCount_pos T c f frequency_pos ltac:(lia) cliff_in_period).
  apply floor_div_Num. lia.
Qed.

Lemma remainingShares_Num :
  nsub (Num totalShares)
    (nmul (floor_div (Num totalShares) (totalVestingEvents T c f))
          (totalVestingEvents T c f))
  = Num rest.
Proof.
  rewrite sharesPerVesting_Num, totalVestingEvents_Num by assumption.
  simpl. f_equal; unfold remainder; lia.
Qed.

(** The schedule is one tranche per offset, with integer quantities. *)
Lemma schedule_on_domain :
  generateVestingSchedule grantDate totalShares years c f
  = Some (map (fun m => newEvent (addMonths grantDate m)
                          (Num (quantityAt c T base rest m)))
              (offsets T c f)).
Proof.
  rewrite generateVestingSchedule_closed by assumption. cbv zeta.
  rewrite remainingShares_Num, sharesPerVesting_Num.
  f_equal. unfold offsets. rewrite map_app. f_equal.
  - unfold quantityAt. destruct (Z.ltb_spec 0 c); [|reflexivity].
    simpl. now rewrite Z.eqb_refl.
  - apply map_ext_in. intros m Hm.
    pose proof (monthsFrom_lower f
                  (iterations (startMonthOf c f) T f) (startMonthOf c f)
                  frequency_pos) as Hlow.
    rewrite Forall_forall in Hlow. specialize (Hlow m Hm).
    unfold regularEvent, regularQuantity, quantityAt, startMonthOf in *.
    destruct (Z.ltb_spec 0 c).
    + destruct (Z.eqb_spec m c); [lia | reflexivity].
    + destruct (m =? T); reflexivity.
Qed.

Lemma base_nonneg : 0 <= totalShares -> 0 <= base.
Proof.
  intros Hs.
  pose proof (eventCount_pos T c f frequency_pos ltac:(lia) cliff_in_period).
  apply Z.div_pos; lia.
Qed.

Lemma rest_nonneg : 0 <= rest.
Proof.
  pose proof (eventCount_pos T c f frequency_pos ltac:(lia) cliff_in_period).
  unfold remainder, baseShares.
  pose proof (Z.mul_div_le totalShares k ltac:(lia)). lia.
Qed.

Lemma quantityAt_nonneg (m : Z) :
  0 <= totalShares -> 0 <= quantityAt c T base rest m.
Proof.
  intros Hs. pose proof (base_nonneg Hs). pose proof rest_nonneg.
  unfold quantityAt.
  destruct (0 <? c); [destruct (m =? c) | destruct (m =? T)]; lia.
Qed.

End Domain.

(** The sum of a constant quantity. *)
Lemma sum_constant (g : Z -> Z) (b : Z) (l : list Z) :
  Forall (fun m => g m = b) l ->
  fold_right Z.add 0 (map g l) = Z.of_nat (List.length l) * b.
Proof.
  induction 1 as [|m l Hm _ IH]; [reflexivity|].
  change (g m + fold_right Z.add 0 (map g l)
          = Z.of_nat (S (List.length l)) * b).
  rewrite IH, Hm. lia.
Qed.

(** Without a cliff, when the loop ends exactly on the last month of the
    period, the last tranche takes the remainder. *)
Lemma sum_ending_on (T step b r : Z) (count : nat) :
  forall month,
    1 <= step -> count <> O ->
    month + (Z.of_nat count - 1) * step = T ->
    fold_right Z.add 0
      (map (fun m => if m =? T then b + r else b) (monthsFrom month step count))
    = Z.of_nat count * b + r.
Proof.
  induction count as [|count IH]; intros month Hs Hc Hend; [contradiction|].
  change (monthsFrom month step (S count))
    with (month :: monthsFrom (month + step) step count).
  rewrite map_cons.
  change (fold_right Z.add 0 (?x :: ?l)) with (x + fold_right Z.add 0 l).
  destruct count as [|count].
  - simpl monthsFrom. simpl map. simpl fold_right.
    destruct (Z.eqb_spec month T); lia.
  - rewrite (IH (month + step)) by (try discriminate; lia).
    destruct (Z.eqb_spec month T); [nia | lia].
Qed.

(** The quantities of a schedule add up to the grant when there is a cliff
    within the period, or no cliff and a frequency that divides the period. *)
Lemma quantityAt_sum (totalShares years c f : Z) :
  1 <= f -> 1 <= years -> 0 <= c <= years * 12 ->
  0 < c \/ (years * 12) mod f = 0 ->
  let count := eventCount (years * 12) c f in
  fold_right Z.add 0
    (map (quantityAt c (years * 12) (baseShares totalShares count)
            (remainder totalShares count))
         (offsets (years * 12) c f))
  = totalShares.
Proof.
  intros Hf Hy Hc Hcase count.
  set (b := baseShares totalShares count).
  set (r := remainder totalShares count).
  assert (b * count + r = totalShares) as Htotal
    by (subst r; unfold remainder; fold b; lia).
  unfold offsets, startMonthOf, quantityAt. subst count.
  unfold eventCount in *.
  destruct (Z.ltb_spec 0 c) as [Hpos|Hzero].
  - simpl app. rewrite map_cons.
    change (fold_right Z.add 0 (?x :: ?l)) with (x + fold_right Z.add 0 l).
    rewrite Z.eqb_refl.
    rewrite (sum_constant _ b).
    + rewrite monthsFrom_length, iterations_cliff by lia. lia.
    + eapply Forall_impl; [|apply (monthsFrom_lower f _ (c + f) Hf)].
      simpl. intros m Hm. destruct (Z.eqb_spec m c); [lia | reflexivity].
  - destruct Hcase as [Hpos|Hdiv]; [lia|].
    assert (c = 0) by lia. subst c. simpl app.
    pose proof (iterations_no_cliff (years * 12) f Hf ltac:(lia)) as Hn.
    pose proof (Z.div_exact (years * 12) f ltac:(lia)) as [_ Hex].
    specialize (Hex Hdiv).
    rewrite Z.div_opp_l_z in Htotal by lia.
    rewrite (sum_ending_on (years * 12) f b r) by (rewrite ?Hn; nia).
    rewrite Hn. lia.
Qed.

(* ================================================================== *)
(** ** The generated quantities *)


(** C1, as the code has it: for valid inputs that are safe integers, whose
    cliff lies within the vesting period and, when there is no cliff, whose
    frequency divides the period, the generator returns and the quantities
    of its tranches sum to [totalShares]. *)
Theorem generated_quantities_sum
    (grantDate : Date) (totalShares years c f : Z) :
  validInputs totalShares years c f ->
  safeInputs totalShares years c f ->
  c <= years * 12 ->
  0 < c \/ (years * 12) mod f = 0 ->
  exists l,
    generateVestingSchedule grantDate totalShares years c f = Some l /\
    sum_numbers (quantities l) = Num totalShares.
Proof.
  intros (Hs & Hy & Hc & Hf) _ HcT Hcase.
  eexists. split.
  - apply schedule_on_domain; lia.
  - unfold quantities. rewrite map_map. simpl VestingEvent.quantity.
    rewrite <- (map_map _ Num), sum_numbers_Num.
    f_equal. apply quantityAt_sum; lia.
Qed.

Lemma generated_quantities_sum_witness :
  validInputs 1200 4 12 3 /\
  safeInputs 1200 4 12 3 /\
  exists l,
    generateVestingSchedule d20240101 1200 4 12 3 = Some l /\
    sum_numbers (quantities l) = Num 1200.
Proof.
  assert (validInputs 1200 4 12 3) as Hv by (unfold validInputs; lia).
  assert (safeInputs 1200 4 12 3) as Hsafe
    by (unfold safeInputs, MAX_SAFE_INTEGER; lia).
  split; [exact Hv|]. split; [exact Hsafe|].
  apply (generated_quantities_sum d20240101 1200 4 12 3 Hv Hsafe);
    [lia | left; lia].
Defined.

(** C1 as stated fails: a cliff beyond the vesting period makes the number
    of events negative and the only tranche negative, and a frequency that
    does not divide a period without cliff leaves shares out. *)
Lemma generated_quantities_sum_counterexample :
  (validInputs 1200 1 24 1 /\
   exists l,
     generateVestingSchedule d20240101 1200 1 24 1 = Some l /\
     sum_numbers (quantities l) = Num (-120) /\
     sum_numbers (quantities l) <> Num 1200) /\
  (validInputs 100 1 0 5 /\
   exists l,
     generateVestingSchedule d20240101 100 1 0 5 = Some l /\
     sum_numbers (quantities l) = Num 66 /\
     sum_numbers (quantities l) <> Num 100).
Proof.
  split; (split; [unfold validInputs; lia|]);
    eexists; (split; [reflexivity|]); split;
      [reflexivity | discriminate | reflexivity | discriminate].
Qed.

(** C2, at an input where the code departs from it: with no cliff, 100
    shares over one year every 5 months give three events, a base of 33 and a
    remainder of 1, but only the tranches at months 5 and 10 are emitted and
    the last of them has the base quantity 33, not 34. *)
Theorem no_cliff_last_tranche_without_remainder :
  validInputs 100 1 0 5 /\
  eventCount 12 0 5 = 3 /\
  baseShares 100 3 = 33 /\
  remainder 100 3 = 1 /\
  generateVestingSchedule d20240101 100 1 0 5
  = Some [newEvent (addMonths d20240101 5) (Num 33);
          newEvent (addMonths d20240101 10) (Num 33)] /\
  option_map (fun l => last (quantities l) NaN)
    (generateVestingSchedule d20240101 100 1 0 5)
  <> Some (Num (33 + 1)).
Proof.
  repeat split; try reflexivity; try (unfold validInputs; lia); discriminate.
Qed.

(** The second scenario of the specification, where the frequency divides
    the period: twelve tranches, eleven of 8 shares and a last one of 12. *)
Lemma scenario_no_cliff_monthly :
  option_map quantities (generateVestingSchedule d20240101 100 1 0 1)
  = Some (repeat (Num 8) 11 ++ [Num 12]).
Proof. reflexivity. Qed.

(** ** Where the quantities do not add up *)

(** With a cliff beyond the vesting period the schedule is the cliff
    tranche alone. *)
Lemma cliff_beyond_period_schedule
    (grantDate : Date) (totalShares years c f : Z) :
  1 <= f -> 0 < c -> years * 12 < c ->
  let events := totalVestingEvents (years * 12) c f in
  let sharesPerVesting := floor_div (Num totalShares) events in
  generateVestingSchedule grantDate totalShares years c f
  = Some [newEvent (addMonths grantDate c)
            (nadd sharesPerVesting
               (nsub (Num totalShares) (nmul sharesPerVesting events)))].
Proof.
  intros Hf Hc HcT events sharesPerVesting.
  rewrite generateVestingSchedule_closed by assumption. cbv zeta.
  fold events. fold sharesPerVesting.
  unfold startMonthOf, iterations.
  destruct (Z.ltb_spec 0 c); [|lia].
  destruct (Z.leb_spec (c + f) (years * 12)); [lia|].
  reflexivity.
Qed.

(** The multiples of the step. *)
Lemma monthsFrom_multiples (step : Z) (count : nat) :
  forall j, Forall (fun m => exists i, m = i * step)
                   (monthsFrom (j * step) step count).
Proof.
  induction count as [|count IH]; intros j; simpl; constructor.
  - now exists j.
  - replace (j * step + step) with ((j + 1) * step) by lia. apply IH.
Qed.


(* ================================================================== *)
(** ** The cliff scenario *)

(** C4, as the code has it: [generate(2024-01-01, 1200, 4, 12, 3)] has 13
    events, base 92 and remainder 4; the first tranche is dated 2025-01-01
    and has quantity 96, twelve quarterly tranches of 92 follow, and the
    quantities total 1200. *)
Theorem scenario_cliff_quarterly :
  eventCount 48 12 3 = (48 - 12) / 3 + 1 /\
  eventCount 48 12 3 = 13 /\
  baseShares 1200 13 = 92 /\
  remainder 1200 13 = 4 /\
  generateVestingSchedule d20240101 1200 4 12 3
  = Some (newEvent (mkDate 2025 0 1 0) (Num 96)
          :: map (fun m => newEvent (addMonths d20240101 m) (Num 92))
               (monthsFrom 15 3 12)) /\
  sum_numbers (Num 96 :: repeat (Num 92) 12) = Num 1200.
Proof. repeat split; reflexivity. Qed.

(** C4 as stated fails: the first tranche does not have quantity
    1200/16 = 75. *)
Lemma scenario_cliff_quarterly_counterexample :
  1200 / 16 = 75 /\
  ~ (exists first rest,
       generateVestingSchedule d20240101 1200 4 12 3 = Some (first :: rest) /\
       VestingEvent.quantity first = Num 75).
Proof.
  split; [reflexivity|].
  intros (first & rest & Hgen & Hq).
  vm_compute in Hgen. injection Hgen as Hfirst _. subst first.
  discriminate Hq.
Qed.

(* ================================================================== *)
(** ** Valuation *)

Lemma or_else_tranchePrice (event : VestingEvent.t) (fallbackPrice : number) :
  or_else (VestingEvent.price event) fallbackPrice
  = tranchePrice event fallbackPrice.
Proof.
  unfold or_else, tranchePrice.
  destruct (VestingEvent.price event) as [[z| | |]|]; try reflexivity.
  simpl. destruct z; reflexivity.
Qed.

(** The reducer of [calculateTotalValue] computes a sum. *)
Lemma calculateTotalValue_reduce (grant : RSUGrant.t) (fallbackPrice : number) :
  calculateTotalValue grant fallbackPrice
  = sum_numbers
      (map (fun event =>
              nmul (VestingEvent.quantity event)
                   (tranchePrice event fallbackPrice))
           (RSUGrant.vestingSchedule grant)).
Proof.
  unfold calculateTotalValue.
  rewrite (fold_left_nadd
             (fun event =>
                nmul (VestingEvent.quantity event)
                     (or_else (VestingEvent.price event) fallbackPrice))).
  rewrite nadd_0_l. f_equal. apply map_ext.
  intros event. now rewrite or_else_tranchePrice.
Qed.

(** C5, as the code has it: for every grant and every fallback price,
    [calculateTotalValue] is the sum over all tranches of quantity times
    price, where the price is the stored price of the tranche when it is
    present and neither zero nor [NaN], and the fallback price otherwise. *)
Theorem calculateTotalValue_sum (grant : RSUGrant.t) (fallbackPrice : number) :
  calculateTotalValue grant fallbackPrice
  = sum_numbers
      (map (fun event =>
              nmul (VestingEvent.quantity event)
                   (match VestingEvent.price event with
                    | Some p =>
                        if number_eqb p (Num 0) || isNaN p
                        then fallbackPrice else p
                    | None => fallbackPrice
                    end))
           (RSUGrant.vestingSchedule grant)).
Proof.
  rewrite calculateTotalValue_reduce. f_equal. apply map_ext.
  intros event. f_equal. unfold tranchePrice.
  destruct (VestingEvent.price event) as [[z| | |]|]; try reflexivity.
  destruct z; reflexivity.
Qed.

(** C5 as stated fails: a stored price of zero is present, yet the tranche
    is valued at the fallback price. *)
Lemma calculateTotalValue_sum_counterexample :
  let event := VestingEvent.mk d20240101 (Num 10) (Some (Num 0)) None None in
  let grant := grantWith (Num 10) [event] in
  calculateTotalValue grant (Num 5) = Num 50 /\
  totalValue_spec grant (Num 5) = Num 0 /\
  calculateTotalValue grant (Num 5) <> totalValue_spec grant (Num 5).
Proof. repeat split; discriminate. Qed.

(** Where no stored price is zero or [NaN], the code computes the total
    value of the specification. *)
Lemma calculateTotalValue_spec_truthy (grant : RSUGrant.t) (fallbackPrice : number) :
  Forall (fun event =>
            forall p, VestingEvent.price event = Some p -> truthy p = true)
         (RSUGrant.vestingSchedule grant) ->
  calculateTotalValue grant fallbackPrice = totalValue_spec grant fallbackPrice.
Proof.
  intros Hall. rewrite calculateTotalValue_reduce. unfold totalValue_spec.
  f_equal. apply map_ext_in. intros event Hin.
  rewrite Forall_forall in Hall. specialize (Hall event Hin).
  rewrite <- or_else_tranchePrice. unfold or_else, tranchePrice_spec.
  destruct (VestingEvent.price event) as [p|]; [|reflexivity].
  now rewrite (Hall p eq_refl).
Qed.





(* ================================================================== *)
(** ** Dates of the tranches *)

(** The calendar month of a date, counted from year 0. *)
Lemma addMonths_month (d : Date) (amount : Z) :
  amount <> 0 ->
  getFullYear (addMonths d amount) * 12 + getMonth (addMonths d amount)
  = getFullYear d * 12 + getMonth d + amount
  /\ 0 <= getMonth (addMonths d amount) < 12.
Proof.
  intros Ha. unfold addMonths.
  destruct (Z.eqb_spec amount 0); [contradiction|].
  set (index := getFullYear d * 12 + getMonth d + amount).
  pose proof (Z.div_mod index 12 ltac:(lia)).
  pose proof (Z.mod_pos_bound index 12 ltac:(lia)).
  destruct (daysInMonth (index / 12) (index mod 12) <=? getDate d); simpl; lia.
Qed.

(** The day of the month is kept, or clamped to the last day of the target
    month; the time of day is kept. *)
Lemma addMonths_day (d : Date) (amount : Z) :
  amount <> 0 ->
  getDate (addMonths d amount)
  = Z.min (getDate d)
      (daysInMonth (getFullYear (addMonths d amount))
                   (getMonth (addMonths d amount)))
  /\ timeOfDay (addMonths d amount) = timeOfDay d.
Proof.
  intros Ha. unfold addMonths.
  destruct (Z.eqb_spec amount 0); [contradiction|].
  set (index := getFullYear d * 12 + getMonth d + amount).
  destruct (Z.leb_spec (daysInMonth (index / 12) (index mod 12)) (getDate d));
    simpl; lia.
Qed.

Lemma daysInMonth_bounds (y m : Z) : 28 <= daysInMonth y m <= 31.
Proof.
  unfold daysInMonth.
  destruct (m =? 1); [destruct (isLeapYear y); lia|].
  destruct ((m =? 3) || (m =? 5) || (m =? 8) || (m =? 10)); lia.
Qed.

(** Adding months to a calendar date gives a calendar date. *)
Lemma addMonths_valid (d : Date) (amount : Z) :
  valid_date d -> valid_date (addMonths d amount).
Proof.
  intros Hd. destruct (Z.eq_dec amount 0) as [Hzero|Hnonzero].
  - subst amount. exact Hd.
  - destruct Hd as (_ & Hday & Htime).
    destruct (addMonths_month d amount Hnonzero) as [_ Hmonth].
    destruct (addMonths_day d amount Hnonzero) as [Hmin Hsame].
    pose proof (daysInMonth_bounds (getFullYear (addMonths d amount))
                  (getMonth (addMonths d amount))).
    unfold valid_date. rewrite Hsame. repeat split; lia.
Qed.

Lemma Date_lt_by_month (a b : Date) :
  0 <= getMonth a < 12 -> 0 <= getMonth b < 12 ->
  getFullYear a * 12 + getMonth a < getFullYear b * 12 + getMonth b ->
  Date_lt a b.
Proof.
  intros Ha Hb Hlt. unfold Date_lt, Date_compare.
  destruct (Z.compare_spec (getFullYear a) (getFullYear b)) as [Hy|Hy|Hy];
    [|reflexivity|lia].
  destruct (Z.compare_spec (getMonth a) (getMonth b)); [lia|reflexivity|lia].
Qed.

(** Adding more months gives a later date. *)
Lemma addMonths_lt (d : Date) (a b : Z) :
  a <> 0 -> b <> 0 -> a < b -> Date_lt (addMonths d a) (addMonths d b).
Proof.
  intros Ha Hb Hlt.
  destruct (addMonths_month d a Ha) as [Hia Hma].
  destruct (addMonths_month d b Hb) as [Hib Hmb].
  apply Date_lt_by_month; lia.
Qed.


Lemma offsets_sorted (T c f : Z) :
  0 <= c -> 1 <= f ->
  StronglySorted Z.lt (offsets T c f) /\ Forall (fun m => 0 < m) (offsets T c f).
Proof.
  intros Hc Hf. unfold offsets, startMonthOf.
  pose proof (monthsFrom_sorted f (iterations (c + f) T f) (c + f) Hf) as Hs1.
  pose proof (monthsFrom_lower f (iterations (c + f) T f) (c + f) Hf) as Hl1.
  pose proof (monthsFrom_sorted f (iterations f T f) f Hf) as Hs0.
  pose proof (monthsFrom_lower f (iterations f T f) f Hf) as Hl0.
  destruct (Z.ltb_spec 0 c); simpl app; split.
  - constructor; [assumption|].
    eapply Forall_impl; [|exact Hl1]. simpl. intros; lia.
  - constructor; [lia|].
    eapply Forall_impl; [|exact Hl1]. simpl. intros; lia.
  - assumption.
  - eapply Forall_impl; [|exact Hl0]. simpl. intros; lia.
Qed.

Lemma generated_offsets (grantDate : Date) (totalShares years c f : Z) :
  1 <= f ->
  option_map dates (generateVestingSchedule grantDate totalShares years c f)
  = Some (map (addMonths grantDate) (offsets (years * 12) c f)).
Proof.
  intros Hf. rewrite generateVestingSchedule_closed by assumption.
  cbv zeta. simpl option_map. f_equal.
  unfold dates, offsets. rewrite !map_app, map_map. f_equal.
  destruct (0 <? c); reflexivity.
Qed.



(* ================================================================== *)
(** ** Vested shares *)

(** The order of two dates, written out. *)
Lemma Date_leb_spec (a b : Date) :
  Date_leb a b = true <->
  getFullYear a < getFullYear b \/
  (getFullYear a = getFullYear b /\
   (getMonth a < getMonth b \/
    (getMonth a = getMonth b /\
     (getDate a < getDate b \/
      (getDate a = getDate b /\ timeOfDay a <= timeOfDay b))))).
Proof.
  unfold Date_leb, Date_compare.
  destruct (Z.compare_spec (getFullYear a) (getFullYear b));
    destruct (Z.compare_spec (getMonth a) (getMonth b));
    destruct (Z.compare_spec (getDate a) (getDate b));
    destruct (Z.compare_spec (timeOfDay a) (timeOfDay b));
    split; intros Hx; try reflexivity; try discriminate; lia.
Qed.

Lemma Date_leb_trans (a b c : Date) :
  Date_leb a b = true -> Date_leb b c = true -> Date_leb a c = true.
Proof. rewrite !Date_leb_spec. lia. Qed.

(** Over tranches of non-negative quantities, a later date and a larger
    start value give a larger vested total. *)
Lemma vested_fold_monotone (l : list VestingEvent.t) (d1 d2 : Date) :
  Forall nonnegTranche l ->
  Date_leb d1 d2 = true ->
  forall a1 a2, a1 <= a2 ->
    exists v1 v2,
      fold_left (fun total event => nadd total (VestingEvent.quantity event))
        (filter (fun event => Date_leb (VestingEvent.date event) d1) l) (Num a1)
      = Num v1 /\
      fold_left (fun total event => nadd total (VestingEvent.quantity event))
        (filter (fun event => Date_leb (VestingEvent.date event) d2) l) (Num a2)
      = Num v2 /\
      v1 <= v2.
Proof.
  intros Hall Hd. induction Hall as [|event l (q & Hq & Hpos) _ IH];
    intros a1 a2 Ha.
  - exists a1, a2. repeat split. assumption.
  - simpl filter.
    destruct (Date_leb (VestingEvent.date event) d1) eqn:H1.
    + rewrite (Date_leb_trans _ _ _ H1 Hd). simpl fold_left. rewrite Hq.
      apply (IH (a1 + q) (a2 + q)). lia.
    + destruct (Date_leb (VestingEvent.date event) d2).
      * simpl fold_left. rewrite Hq. apply (IH a1 (a2 + q)). lia.
      * apply (IH a1 a2 Ha).
Qed.

(** C7, as the code has it: for a grant whose tranches have the dates and
    quantities generated from valid inputs that are safe integers, with the
    cliff within the vesting period, the vested total does not decrease
    when the date advances. *)
Theorem totalVested_monotone
    (grant : RSUGrant.t) (grantDate : Date) (totalShares years c f : Z)
    (l : list VestingEvent.t) (d1 d2 : Date) :
  validInputs totalShares years c f ->
  safeInputs totalShares years c f ->
  c <= years * 12 ->
  generateVestingSchedule grantDate totalShares years c f = Some l ->
  Forall2 sameTranche l (RSUGrant.vestingSchedule grant) ->
  Date_leb d1 d2 = true ->
  nleb (calculateTotalVestedShares grant d1)
       (calculateTotalVestedShares grant d2) = true.
Proof.
  intros (Hs & Hy & Hc & Hf) _ HcT Hgen Hsame Hd.
  rewrite schedule_on_domain in Hgen by lia.
  injection Hgen as Hl. subst l.
  assert (Forall nonnegTranche (RSUGrant.vestingSchedule grant)) as Hnonneg.
  { remember (offsets (years * 12) c f) as ms eqn:Hms. clear Hms.
    revert Hsame. generalize (RSUGrant.vestingSchedule grant) as events.
    induction ms as [|m ms IH]; intros events Hsame;
      inversion Hsame as [|? event ? events' [_ Hq] Hrest]; subst;
      constructor.
    - exists (quantityAt c (years * 12)
                (baseShares totalShares (eventCount (years * 12) c f))
                (remainder totalShares (eventCount (years * 12) c f)) m).
      split; [exact Hq|]. apply quantityAt_nonneg; lia.
    - apply IH, Hrest. }
  destruct (vested_fold_monotone _ d1 d2 Hnonneg Hd 0 0 ltac:(lia))
    as (v1 & v2 & H1 & H2 & Hle).
  unfold calculateTotalVestedShares. rewrite H1, H2. simpl.
  now apply Z.leb_le.
Qed.

Lemma totalVested_monotone_witness :
  nleb (calculateTotalVestedShares
          (grantWith (Num 1200)
             (scheduleOf (generateVestingSchedule d20240101 1200 4 12 3)))
          (mkDate 2025 5 30 0))
       (calculateTotalVestedShares
          (grantWith (Num 1200)
             (scheduleOf (generateVestingSchedule d20240101 1200 4 12 3)))
          (mkDate 2026 0 1 0))
  = true.
Proof.
  apply (totalVested_monotone
           (grantWith (Num 1200)
              (scheduleOf (generateVestingSchedule d20240101 1200 4 12 3)))
           d20240101 1200 4 12 3
           (scheduleOf (generateVestingSchedule d20240101 1200 4 12 3))).
  - unfold validInputs; lia.
  - unfold safeInputs, MAX_SAFE_INTEGER; lia.
  - lia.
  - reflexivity.
  - vm_compute. repeat constructor.
  - reflexivity.
Defined.

(** C7 as stated fails: with a cliff beyond the vesting period the only
    tranche has a negative quantity, and the vested total drops when its
    date is reached. *)
Lemma totalVested_monotone_counterexample :
  validInputs 1200 1 24 1 /\
  exists l,
    generateVestingSchedule d20240101 1200 1 24 1 = Some l /\
    Date_leb d20240101 (mkDate 2026 0 1 0) = true /\
    calculateTotalVestedShares (grantWith (Num 1200) l) d20240101 = Num 0 /\
    calculateTotalVestedShares (grantWith (Num 1200) l) (mkDate 2026 0 1 0)
    = Num (-120) /\
    nleb (calculateTotalVestedShares (grantWith (Num 1200) l) d20240101)
         (calculateTotalVestedShares (grantWith (Num 1200) l) (mkDate 2026 0 1 0))
    = false.
Proof.
  split; [unfold validInputs; lia|].
  eexists. split; [reflexivity|]. repeat split.
Qed.

(** For every valid input that is a safe integer and has the cliff beyond
    the vesting period, the schedule is the cliff tranche alone, its
    quantity is negative or [NaN], nothing is vested one month after the
    grant and that quantity is vested at the cliff date: the vested total
    is not [<=] between the two dates. *)
Theorem totalVested_decreases_beyond_period
    (grant : RSUGrant.t) (grantDate : Date) (totalShares years c f : Z) :
  validInputs totalShares years c f ->
  safeInputs totalShares years c f ->
  years * 12 < c ->
  generateVestingSchedule grantDate totalShares years c f
  = Some (RSUGrant.vestingSchedule grant) ->
  exists quantity,
    RSUGrant.vestingSchedule grant
    = [newEvent (addMonths grantDate c) quantity] /\
    (quantity = NaN \/ exists q, quantity = Num q /\ q < 0) /\
    Date_leb (addMonths grantDate 1) (addMonths grantDate c) = true /\
    calculateTotalVestedShares grant (addMonths grantDate 1) = Num 0 /\
    calculateTotalVestedShares grant (addMonths grantDate c) = quantity /\
    nleb (calculateTotalVestedShares grant (addMonths grantDate 1))
         (calculateTotalVestedShares grant (addMonths grantDate c)) = false.
Proof.
  intros (Hs & Hy & Hc & Hf) _ HcT Hgen.
  rewrite cliff_beyond_period_schedule in Hgen by lia. cbv zeta in Hgen.
  injection Hgen as Hl.
  destruct (addMonths_month grantDate 1 ltac:(lia)) as [Hi1 Hm1].
  destruct (addMonths_month grantDate c ltac:(lia)) as [Hic Hmc].
  assert (Date_leb (addMonths grantDate 1) (addMonths grantDate c) = true)
    as Hle by (apply Date_leb_spec; lia).
  assert (Date_leb (addMonths grantDate c) (addMonths grantDate 1) = false)
    as Hgt.
  { destruct (Date_leb (addMonths grantDate c) (addMonths grantDate 1)) eqn:E;
      [apply Date_leb_spec in E; lia | reflexivity]. }
  assert (Date_leb (addMonths grantDate c) (addMonths grantDate c) = true)
    as Hrefl by (apply Date_leb_spec; lia).
  eexists. split; [symmetry; exact Hl|].
  unfold calculateTotalVestedShares. rewrite <- Hl. simpl.
  rewrite Hgt, Hrefl. simpl.
  rewrite totalVestingEvents_Num by lia.
  set (count := eventCount (years * 12) c f).
  assert (count <= 0) as Hcount.
  { subst count. unfold eventCount.
    destruct (Z.ltb_spec 0 c); [|lia].
    pose proof (Z.div_lt_upper_bound (years * 12 - c) f 0 ltac:(lia) ltac:(lia)).
    lia. }
  destruct (Z.eq_dec count 0) as [Hzero|Hnonzero].
  - rewrite Hzero. unfold floor_div. simpl.
    destruct (Z.ltb_spec 0 totalShares); [|lia].
    simpl. repeat split; auto.
  - rewrite floor_div_Num by assumption. simpl.
    pose proof (Z.div_mod totalShares count Hnonzero).
    pose proof (Z.mod_neg_bound totalShares count ltac:(lia)).
    assert (totalShares / count + (totalShares + - (totalShares / count * count))
            < 0) as Hneg by nia.
    repeat split; auto.
    + right. eexists. split; [reflexivity | exact Hneg].
    + apply Z.leb_gt. exact Hneg.
Qed.

(* ================================================================== *)
(** ** The price client *)

(** C8: for every symbol and every date later than the date the clock
    shows, [fetchHistoricalPrice] returns [null], which is not a thrown
    error, and the list of requests made is unchanged: no fetch is
    attempted. *)
Theorem fetchHistoricalPrice_future
    (world : World) (symbol : string) (date : Date) (s : State) :
  Date_gtb date (clock world (clockReads s)) = true ->
  fetchHistoricalPrice world symbol date s
  = (Return None, mkState (S (clockReads s)) (requests s) (stockPrices s))
  /\ (forall message,
        fst (fetchHistoricalPrice world symbol date s) <> Throw message)
  /\ requests (snd (fetchHistoricalPrice world symbol date s)) = requests s.
Proof.
  intros Hfuture.
  assert (fetchHistoricalPrice world symbol date s
          = (Return None,
             mkState (S (clockReads s)) (requests s) (stockPrices s))) as Hrun.
  { unfold fetchHistoricalPrice, try_catch, bind, newDate.
    rewrite Hfuture. reflexivity. }
  rewrite Hrun. repeat split. intros message. discriminate.
Qed.

Lemma fetchHistoricalPrice_future_witness :
  fetchHistoricalPrice offline "ACME" (mkDate 2030 0 1 0) initialState
  = (Return None, mkState 1 [] []).
Proof.
  apply (fetchHistoricalPrice_future offline "ACME" (mkDate 2030 0 1 0)
           initialState).
  reflexivity.
Defined.

(** [fetchStockPrice] makes exactly one request, whatever its outcome. *)
Lemma fetchStockPrice_state (world : World) (symbol : string) (s : State) :
  snd (fetchStockPrice world symbol s)
  = mkState (clockReads s) (requests s ++ [CurrentQuote symbol])%list
      (stockPrices s).
Proof.
  unfold fetchStockPrice, try_catch, bind, fetch, json, throw, ret.
  destruct (network world (List.length (requests s)) (CurrentQuote symbol))
    as [[okay code content]|]; [|reflexivity].
  destruct okay; simpl; [|reflexivity].
  destruct content as [|[[regular quote adj]|]]; simpl; try reflexivity.
  destruct regular as [price|]; [|reflexivity].
  destruct (truthy price); reflexivity.
Qed.

(* ================================================================== *)
(** ** [updateVestPrices] *)

Section Update.

Variable world : World.
Variable grant : RSUGrant.t.
Variable currentPrice : number.

(** The callback always returns, with the tranche's date and quantity. *)
Lemma updateEvent_returns (event : VestingEvent.t) (s : State) :
  exists event' s',
    updateEvent world grant currentPrice event s = (Return event', s') /\
    sameTranche event event'.
Proof.
  unfold updateEvent, bind, try_catch, newDate, ret.
  destruct (Date_leb (VestingEvent.date event) (clock world (clockReads s))).
  - destruct (fetchHistoricalPrice world (RSUGrant.symbol grant)
                (VestingEvent.date event)
                (mkState (S (clockReads s)) (requests s) (stockPrices s)))
      as [[historicalPrice|message] s1];
      do 2 eexists; (split; [reflexivity | split; reflexivity]).
  - do 2 eexists. split; [reflexivity | split; reflexivity].
Qed.

Lemma mapM_updateEvent_returns (l : list VestingEvent.t) :
  forall s,
    exists l' s',
      mapM (updateEvent world grant currentPrice) l s = (Return l', s') /\
      Forall2 sameTranche l l'.
Proof.
  induction l as [|event l IH]; intros s.
  - exists [], s. split; [reflexivity | constructor].
  - destruct (updateEvent_returns event s) as (event' & s1 & Hevent & Hsame).
    destruct (IH s1) as (l' & s2 & Hl & Hall).
    exists (event' :: l'), s2. split.
    + simpl. unfold bind at 1. rewrite Hevent.
      unfold bind at 1. rewrite Hl. reflexivity.
    + now constructor.
Qed.

End Update.

Lemma Forall2_sameTranche_refl (l : list VestingEvent.t) :
  Forall2 sameTranche l l.
Proof. induction l; constructor; [split; reflexivity | assumption]. Qed.

Lemma withPriceError_frame (grant : RSUGrant.t) :
  sameGrantFrame grant (withPriceError grant).
Proof.
  unfold sameGrantFrame. simpl.
  repeat split; try reflexivity. apply Forall2_sameTranche_refl.
Qed.

Lemma withPrices_frame (grant : RSUGrant.t) (currentPrice : number)
    (updated : list VestingEvent.t) :
  Forall2 sameTranche (RSUGrant.vestingSchedule grant) updated ->
  sameGrantFrame grant (withPrices grant currentPrice updated).
Proof.
  intros Hall. unfold sameGrantFrame. simpl.
  repeat split; try reflexivity; [|assumption].
  symmetry. eapply Forall2_length, Hall.
Qed.

(** C9: for every grant, whatever the clock shows and the network answers,
    [updateVestPrices] of either component returns a grant whose schedule
    has the same length, whose tranches keep their dates and quantities, and
    whose grant date, quantity, grant price and symbol are unchanged. *)
Theorem updateVestPrices_frame
    (world : World) (grant : RSUGrant.t) (s : State) :
  (exists grant' s',
     RSUCalculator.updateVestPrices world grant s = (Return grant', s') /\
     sameGrantFrame grant grant') /\
  (exists grant' s',
     CompensationCalculator.updateVestPrices world grant s
     = (Return grant', s') /\
     sameGrantFrame grant grant').
Proof.
  split.
  - unfold RSUCalculator.updateVestPrices, try_catch, bind at 1.
    destruct (fetchStockPrice world (RSUGrant.symbol grant) s)
      as [[currentPrice|message] s1].
    + destruct (mapM_updateEvent_returns world grant currentPrice
                  (RSUGrant.vestingSchedule grant) s1)
        as (updated & s2 & Hmap & Hall).
      unfold bind. rewrite Hmap. do 2 eexists.
      split; [reflexivity | now apply withPrices_frame].
    + do 2 eexists. split; [reflexivity | apply withPriceError_frame].
  - unfold CompensationCalculator.updateVestPrices, try_catch, bind at 1.
    destruct (fetchStockPrice world (RSUGrant.symbol grant) s)
      as [[currentPrice|message] s1].
    + unfold bind, newDate, setStockPrices. simpl clockReads. simpl requests.
      simpl stockPrices.
      match goal with
      | |- context [mapM ?f ?l ?st] =>
          destruct (mapM_updateEvent_returns world grant currentPrice l st)
            as (updated & s2 & Hmap & Hall)
      end.
      rewrite Hmap. do 2 eexists.
      split; [reflexivity | now apply withPrices_frame].
    + do 2 eexists. split; [reflexivity | apply withPriceError_frame].
Qed.

(** C10: when [fetchStockPrice] throws, [updateVestPrices] of either
    component returns the grant with [priceError] set to a message and
    everything else as it was, the vesting schedule included; the only
    request made is the one for the current price, and the price table is
    not touched. *)
Theorem updateVestPrices_current_price_failure
    (world : World) (grant : RSUGrant.t) (s s' : State) (message : string) :
  fetchStockPrice world (RSUGrant.symbol grant) s = (Throw message, s') ->
  exists grant',
    RSUCalculator.updateVestPrices world grant s = (Return grant', s') /\
    CompensationCalculator.updateVestPrices world grant s = (Return grant', s') /\
    RSUGrant.priceError grant' = Some "Failed to fetch prices"%string /\
    RSUGrant.vestingSchedule grant' = RSUGrant.vestingSchedule grant /\
    RSUGrant.currentPrice grant' = RSUGrant.currentPrice grant /\
    RSUGrant.grantDate grant' = RSUGrant.grantDate grant /\
    RSUGrant.quantity grant' = RSUGrant.quantity grant /\
    RSUGrant.grantPrice grant' = RSUGrant.grantPrice grant /\
    RSUGrant.symbol grant' = RSUGrant.symbol grant /\
    requests s' = (requests s ++ [CurrentQuote (RSUGrant.symbol grant)])%list /\
    clockReads s' = clockReads s /\
    stockPrices s' = stockPrices s.
Proof.
  intros Hfail.
  pose proof (fetchStockPrice_state world (RSUGrant.symbol grant) s) as Hstate.
  rewrite Hfail in Hstate. simpl in Hstate.
  exists (withPriceError grant). repeat apply conj; try reflexivity.
  - unfold RSUCalculator.updateVestPrices, try_catch, bind at 1.
    rewrite Hfail. reflexivity.
  - unfold CompensationCalculator.updateVestPrices, try_catch, bind at 1.
    rewrite Hfail. reflexivity.
  - now rewrite Hstate.
  - now rewrite Hstate.
  - now rewrite Hstate.
Qed.

Lemma updateVestPrices_current_price_failure_witness :
  let grant :=
    grantWith (Num 1200)
      (scheduleOf (generateVestingSchedule d20240101 1200 4 12 3)) in
  fetchStockPrice offline (RSUGrant.symbol grant) initialState
  = (Throw "Failed to fetch", mkState 0 [CurrentQuote "ACME"] []) /\
  exists grant',
    RSUCalculator.updateVestPrices offline grant initialState
    = (Return grant', mkState 0 [CurrentQuote "ACME"] []) /\
    RSUGrant.vestingSchedule grant' = RSUGrant.vestingSchedule grant.
Proof.
  intros grant.
  assert (fetchStockPrice offline (RSUGrant.symbol grant) initialState
          = (Throw "Failed to fetch", mkState 0 [CurrentQuote "ACME"] []))
    as Hfail by reflexivity.
  split; [exact Hfail|].
  destruct (updateVestPrices_current_price_failure offline grant initialState
              _ _ Hfail)
    as (grant' & Hrun & _ & _ & Hschedule & _).
  exists grant'. split; assumption.
Defined.

(* ================================================================== *)
(** * Further properties of the code *)

(** ** The generator *)

Lemma monthsFrom_upper (step : Z) (count : nat) :
  forall month, 1 <= step ->
    Forall (fun m => m <= month + (Z.of_nat count - 1) * step)
           (monthsFrom month step count).
Proof.
  induction count as [|count IH]; intros month Hs; cbn [monthsFrom];
    constructor.
  - rewrite Nat2Z.inj_succ. nia.
  - eapply Forall_impl; [|apply (IH (month + step) Hs)].
    cbv beta. intros m Hm. rewrite Nat2Z.inj_succ. nia.
Qed.

(** With the cliff within the period every offset lies in the period. *)
Lemma offsets_within (T c f : Z) :
  1 <= f -> 0 <= c <= T ->
  Forall (fun m => 0 < m <= T) (offsets T c f).
Proof.
  intros Hf Hc.
  destruct (offsets_sorted T c f ltac:(lia) Hf) as [_ Hpos].
  assert (Forall (fun m => m <= T) (offsets T c f)) as Hup.
  { unfold offsets. apply Forall_app. split.
    - destruct (0 <? c); constructor; [lia | constructor].
    - destruct (iterations_bounds T f (startMonthOf c f) Hf)
        as (_ & Hin & _).
      pose proof (monthsFrom_upper f
                    (iterations (startMonthOf c f) T f)
                    (startMonthOf c f) Hf) as Hupper.
      destruct (iterations (startMonthOf c f) T f) as [|n] eqn:Hn;
        [constructor|].
      specialize (Hin ltac:(discriminate)).
      eapply Forall_impl; [|exact Hupper]. cbv beta. intros m Hm. lia. }
  rewrite Forall_forall in *. intros m Hm.
  specialize (Hpos m Hm). specialize (Hup m Hm). lia.
Qed.




(** With a frequency that is not positive and a first month within the
    period, the loop of the generator exits within no amount of fuel: the
    source never returns. *)
Theorem generateVestingSchedule_never_returns
    (grantDate : Date) (totalShares years c f : Z) :
  f <= 0 ->
  startMonthOf c f <= years * 12 ->
  generateVestingSchedule grantDate totalShares years c f = None /\
  forall (sharesPerVesting remainingShares : number) (fuel : nat),
    regularEvents grantDate c (years * 12) f sharesPerVesting remainingShares
      fuel (startMonthOf c f) = None.
Proof.
  intros Hf Hstart. split.
  - unfold generateVestingSchedule. fold (startMonthOf c f).
    rewrite regularEvents_diverges by assumption. reflexivity.
  - intros sharesPerVesting remainingShares fuel.
    now apply regularEvents_diverges.
Qed.

Lemma generateVestingSchedule_never_returns_witness :
  generateVestingSchedule d20240101 1200 4 12 0 = None.
Proof.
  refine (proj1 (generateVestingSchedule_never_returns d20240101 1200 4 12 0
                   _ _)).
  - lia.
  - vm_compute. discriminate.
Defined.

(** For safe integers and the cliff within the period every tranche holds
    the base quantity or the base quantity plus the remainder, and the
    remainder is smaller than the number of events: two tranches never
    differ by that many shares. *)
Theorem generated_quantities_balanced
    (grantDate : Date) (totalShares years c f : Z) :
  validInputs totalShares years c f ->
  safeInputs totalShares years c f ->
  c <= years * 12 ->
  let count := eventCount (years * 12) c f in
  let base := baseShares totalShares count in
  let rest := remainder totalShares count in
  0 <= base /\ 0 <= rest < count /\
  exists l,
    generateVestingSchedule grantDate totalShares years c f = Some l /\
    Forall (fun event =>
              VestingEvent.quantity event = Num base \/
              VestingEvent.quantity event = Num (base + rest)) l.
Proof.
  intros (Hs & Hy & Hc & Hf) _ HcT count base rest.
  assert (1 <= count) as Hcount by (apply eventCount_pos; lia).
  split; [apply Z.div_pos; lia|]. split.
  - unfold rest, remainder, baseShares.
    pose proof (Z.mul_div_le totalShares count ltac:(lia)).
    pose proof (Z.mul_succ_div_gt totalShares count ltac:(lia)).
    lia.
  - eexists. split; [apply schedule_on_domain; lia|].
    rewrite Forall_map. apply Forall_forall. intros m _.
    simpl VestingEvent.quantity. fold count. fold base. fold rest.
    unfold quantityAt.
    destruct (0 <? c); [destruct (m =? c) | destruct (m =? years * 12)];
      auto.
Qed.

Lemma generated_quantities_balanced_witness :
  0 <= remainder 1200 (eventCount 48 12 3) < eventCount 48 12 3.
Proof.
  refine (proj1 (proj2 (generated_quantities_balanced d20240101 1200 4 12 3
                          _ _ _))).
  - unfold validInputs; lia.
  - unfold safeInputs, MAX_SAFE_INTEGER; lia.
  - lia.
Defined.


(** Adding fewer months does not give a later date. *)
Lemma addMonths_le (d : Date) (a b : Z) :
  0 < a -> a <= b -> Date_leb (addMonths d a) (addMonths d b) = true.
Proof.
  intros Ha Hle. destruct (Z.eq_dec a b) as [Heq|Hneq].
  - subst b. apply Date_leb_spec. lia.
  - pose proof (addMonths_lt d a b ltac:(lia) ltac:(lia) ltac:(lia)) as Hlt.
    unfold Date_leb. unfold Date_lt in Hlt. now rewrite Hlt.
Qed.



(** ** Vested shares and value *)

Lemma Date_compare_antisym (a b : Date) :
  Date_compare b a = CompOpp (Date_compare a b).
Proof.
  unfold Date_compare.
  rewrite (Z.compare_antisym (getFullYear a) (getFullYear b)).
  rewrite (Z.compare_antisym (getMonth a) (getMonth b)).
  rewrite (Z.compare_antisym (getDate a) (getDate b)).
  rewrite (Z.compare_antisym (timeOfDay a) (timeOfDay b)).
  destruct (getFullYear a ?= getFullYear b); simpl; try reflexivity.
  destruct (getMonth a ?= getMonth b); simpl; try reflexivity.
  destruct (getDate a ?= getDate b); simpl; reflexivity.
Qed.

Lemma Date_lt_not_leb (a b : Date) :
  Date_lt a b <-> Date_leb b a = false.
Proof.
  unfold Date_lt, Date_leb. rewrite (Date_compare_antisym a b).
  destruct (Date_compare a b); simpl; split; intros H;
    try reflexivity; discriminate.
Qed.

(** Two dates are always comparable. *)
Lemma Date_leb_total (a b : Date) :
  Date_leb a b = false -> Date_leb b a = true.
Proof.
  unfold Date_leb. rewrite (Date_compare_antisym a b).
  destruct (Date_compare a b); simpl; intros H; try reflexivity;
    discriminate.
Qed.

(** The vested total reads only the dates and quantities of the tranches. *)
Lemma vested_fold_sameTranche (l l' : list VestingEvent.t) (asOf : Date) :
  Forall2 sameTranche l l' ->
  forall a,
    fold_left (fun total event => nadd total (VestingEvent.quantity event))
      (filter (fun event => Date_leb (VestingEvent.date event) asOf) l') a
    = fold_left (fun total event => nadd total (VestingEvent.quantity event))
        (filter (fun event => Date_leb (VestingEvent.date event) asOf) l) a.
Proof.
  induction 1 as [|event event' l l' [Hdate Hquantity] _ IH]; intros a;
    [reflexivity|].
  simpl filter. rewrite Hdate.
  destruct (Date_leb (VestingEvent.date event) asOf); simpl fold_left;
    [rewrite Hquantity|]; apply IH.
Qed.

Lemma nonnegTranche_sameTranche (l l' : list VestingEvent.t) :
  Forall2 sameTranche l l' -> Forall nonnegTranche l -> Forall nonnegTranche l'.
Proof.
  induction 1 as [|event event' l l' [_ Hquantity] _ IH]; intros Hall;
    [constructor|].
  inversion Hall as [|? ? (q & Hq & Hpos) Hrest]; subst.
  constructor; [|now apply IH].
  exists q. split; [congruence | assumption].
Qed.

(** Over tranches of non-negative quantities the vested total lies between
    the start value and the start value plus all quantities. *)
Lemma vested_fold_bounds (l : list VestingEvent.t) (asOf : Date) :
  Forall nonnegTranche l ->
  forall a,
    exists v s,
      fold_left (fun total event => nadd total (VestingEvent.quantity event))
        (filter (fun event => Date_leb (VestingEvent.date event) asOf) l)
        (Num a)
      = Num v /\
      sum_numbers (quantities l) = Num s /\
      0 <= s /\ a <= v <= a + s.
Proof.
  induction 1 as [|event l (q & Hq & Hpos) _ IH]; intros a.
  - exists a, 0. repeat split; lia.
  - simpl filter.
    change (quantities (event :: l))
      with (VestingEvent.quantity event :: quantities l).
    change (sum_numbers (VestingEvent.quantity event :: quantities l))
      with (nadd (VestingEvent.quantity event) (sum_numbers (quantities l))).
    destruct (Date_leb (VestingEvent.date event) asOf).
    + simpl fold_left. rewrite Hq.
      destruct (IH (a + q)) as (v & s & Hv & Hs & Hs0 & Hle).
      exists v, (q + s). rewrite Hv, Hs. repeat split; try reflexivity; lia.
    + destruct (IH a) as (v & s & Hv & Hs & Hs0 & Hle).
      exists v, (q + s). rewrite Hv, Hs, Hq.
      repeat split; try reflexivity; lia.
Qed.

(** With the cliff within the period the quantities never add up to more
    than the grant. *)
Lemma quantityAt_sum_le (totalShares years c f : Z) :
  0 <= totalShares -> 1 <= f -> 1 <= years -> 0 <= c <= years * 12 ->
  let count := eventCount (years * 12) c f in
  fold_right Z.add 0
    (map (quantityAt c (years * 12) (baseShares totalShares count)
            (remainder totalShares count))
         (offsets (years * 12) c f))
  <= totalShares.
Proof.
  intros Hs Hf Hy Hc count.
  destruct (Z.eq_dec c 0) as [Hc0|Hc0];
    [destruct (Z.eq_dec ((years * 12) mod f) 0) as [Hdiv|Hrem]|].
  - subst count. rewrite quantityAt_sum; lia.
  - subst c.
    assert (1 <= count) as Hcount by (apply eventCount_pos; lia).
    set (b := baseShares totalShares count).
    assert (0 <= b) as Hb by (unfold b, baseShares; apply Z.div_pos; lia).
    assert (b * count <= totalShares) as Hbk.
    { unfold b, baseShares.
      pose proof (Z.mul_div_le totalShares count ltac:(lia)). lia. }
    unfold offsets, startMonthOf, quantityAt.
    change (0 <? 0) with false. cbv iota. simpl app.
    rewrite (sum_constant _ b).
    + rewrite monthsFrom_length, iterations_no_cliff by lia.
      assert (count = (years * 12) / f + 1) as Hk.
      { subst count. unfold eventCount. change (0 <? 0) with false.
        cbv iota. rewrite Z.div_opp_l_nz by lia. lia. }
      nia.
    + pose proof (monthsFrom_multiples f (iterations f (years * 12) f) 1) as Hm.
      rewrite Z.mul_1_l in Hm.
      eapply Forall_impl; [|exact Hm]. cbv beta. intros m [i Hi].
      destruct (Z.eqb_spec m (years * 12)) as [Heq|]; [|reflexivity].
      exfalso. apply Hrem. rewrite <- Heq, Hi. apply Z.mod_mul. lia.
  - subst count. rewrite quantityAt_sum; lia.
Qed.

(** The tranches of a schedule with the cliff within the period have
    non-negative integer quantities. *)
Lemma schedule_nonneg (grantDate : Date) (totalShares years c f : Z)
    (l : list VestingEvent.t) :
  validInputs totalShares years c f ->
  c <= years * 12 ->
  generateVestingSchedule grantDate totalShares years c f = Some l ->
  Forall nonnegTranche l.
Proof.
  intros (Hs & Hy & Hc & Hf) HcT Hgen.
  rewrite schedule_on_domain in Hgen by lia.
  injection Hgen as Hl. subst l.
  rewrite Forall_map. apply Forall_forall. intros m _.
  eexists. split; [reflexivity|]. apply quantityAt_nonneg; lia.
Qed.

(** For a grant whose tranches have the dates and quantities generated
    from valid inputs that are safe integers, with the cliff within the
    period, the vested total at any date is an integer between 0 and
    [totalShares]. *)
Theorem totalVested_bounds
    (grant : RSUGrant.t) (grantDate : Date) (totalShares years c f : Z)
    (l : list VestingEvent.t) (asOfDate : Date) :
  validInputs totalShares years c f ->
  safeInputs totalShares years c f ->
  c <= years * 12 ->
  generateVestingSchedule grantDate totalShares years c f = Some l ->
  Forall2 sameTranche l (RSUGrant.vestingSchedule grant) ->
  exists vested,
    calculateTotalVestedShares grant asOfDate = Num vested /\
    0 <= vested <= totalShares.
Proof.
  intros Hvalid _ HcT Hgen Hsame.
  pose proof (schedule_nonneg _ _ _ _ _ _ Hvalid HcT Hgen) as Hnonneg.
  destruct Hvalid as (Hs & Hy & Hc & Hf).
  unfold calculateTotalVestedShares.
  rewrite (vested_fold_sameTranche _ _ asOfDate Hsame).
  destruct (vested_fold_bounds l asOfDate Hnonneg 0)
    as (v & s & Hv & Hsum & Hs0 & Hle).
  exists v. split; [exact Hv|].
  rewrite schedule_on_domain in Hgen by lia.
  injection Hgen as Hl. subst l.
  unfold quantities in Hsum. rewrite map_map in Hsum.
  simpl VestingEvent.quantity in Hsum.
  rewrite <- (map_map _ Num), sum_numbers_Num in Hsum.
  injection Hsum as Hsum.
  pose proof (quantityAt_sum_le totalShares years c f
                ltac:(lia) Hf Hy ltac:(lia)) as Hbound.
  cbv zeta in Hbound. lia.
Qed.

Lemma totalVested_bounds_witness :
  exists vested,
    calculateTotalVestedShares
      (grantWith (Num 100)
         (scheduleOf (generateVestingSchedule d20240101 100 1 0 5)))
      (mkDate 2024 8 1 0)
    = Num vested /\
    0 <= vested <= 100.
Proof.
  apply (totalVested_bounds
           (grantWith (Num 100)
              (scheduleOf (generateVestingSchedule d20240101 100 1 0 5)))
           d20240101 100 1 0 5
           (scheduleOf (generateVestingSchedule d20240101 100 1 0 5))).
  - unfold validInputs; lia.
  - unfold safeInputs, MAX_SAFE_INTEGER; lia.
  - lia.
  - reflexivity.
  - vm_compute. repeat constructor.
Defined.

(** Where the inputs are safe integers and the quantities add up to the
    grant, a grant is fully vested from the end of the vesting period on. *)
Theorem totalVested_after_period
    (grant : RSUGrant.t) (grantDate : Date) (totalShares years c f : Z)
    (l : list VestingEvent.t) (asOfDate : Date) :
  validInputs totalShares years c f ->
  safeInputs totalShares years c f ->
  c <= years * 12 ->
  0 < c \/ (years * 12) mod f = 0 ->
  generateVestingSchedule grantDate totalShares years c f = Some l ->
  Forall2 sameTranche l (RSUGrant.vestingSchedule grant) ->
  Date_leb (addMonths grantDate (years * 12)) asOfDate = true ->
  calculateTotalVestedShares grant asOfDate = Num totalShares.
Proof.
  intros (Hs & Hy & Hc & Hf) _ HcT Hcase Hgen Hsame Hlate.
  unfold calculateTotalVestedShares.
  rewrite (vested_fold_sameTranche _ _ asOfDate Hsame).
  rewrite schedule_on_domain in Hgen by lia.
  injection Hgen as Hl. subst l.
  rewrite forallb_filter_id.
  - rewrite (fold_left_nadd VestingEvent.quantity), nadd_0_l.
    rewrite map_map. simpl VestingEvent.quantity.
    rewrite <- (map_map _ Num), sum_numbers_Num.
    f_equal. apply quantityAt_sum; lia.
  - apply forallb_forall. intros event Hin.
    apply in_map_iff in Hin. destruct Hin as (m & Hevent & Hm).
    subst event. simpl VestingEvent.date.
    pose proof (offsets_within (years * 12) c f Hf ltac:(lia)) as Hwithin.
    rewrite Forall_forall in Hwithin. specialize (Hwithin m Hm).
    apply (Date_leb_trans _ (addMonths grantDate (years * 12)));
      [apply addMonths_le; lia | exact Hlate].
Qed.

Lemma totalVested_after_period_witness :
  calculateTotalVestedShares
    (grantWith (Num 1200)
       (scheduleOf (generateVestingSchedule d20240101 1200 4 12 3)))
    (mkDate 2030 5 15 0)
  = Num 1200.
Proof.
  apply (totalVested_after_period
           (grantWith (Num 1200)
              (scheduleOf (generateVestingSchedule d20240101 1200 4 12 3)))
           d20240101 1200 4 12 3
           (scheduleOf (generateVestingSchedule d20240101 1200 4 12 3))).
  - unfold validInputs; lia.
  - unfold safeInputs, MAX_SAFE_INTEGER; lia.
  - lia.
  - left; lia.
  - reflexivity.
  - vm_compute. repeat constructor.
  - reflexivity.
Defined.

(** For every valid input nothing is vested before the date of the first
    tranche: the cliff date, or one frequency step after the grant when
    there is no cliff. *)
Theorem totalVested_before_first_tranche
    (grant : RSUGrant.t) (grantDate : Date) (totalShares years c f : Z)
    (l : list VestingEvent.t) (asOfDate : Date) :
  validInputs totalShares years c f ->
  generateVestingSchedule grantDate totalShares years c f = Some l ->
  Forall2 sameTranche l (RSUGrant.vestingSchedule grant) ->
  Date_lt asOfDate (addMonths grantDate (if 0 <? c then c else f)) ->
  calculateTotalVestedShares grant asOfDate = Num 0.
Proof.
  intros (Hs & Hy & Hc & Hf) Hgen Hsame Hearly.
  unfold calculateTotalVestedShares.
  rewrite (vested_fold_sameTranche _ _ asOfDate Hsame).
  pose proof (generated_offsets grantDate totalShares years c f Hf) as Hdates.
  rewrite Hgen in Hdates. injection Hdates as Hdates.
  assert (Forall (fun m => (if 0 <? c then c else f) <= m)
                 (offsets (years * 12) c f)) as Hlow.
  { unfold offsets, startMonthOf. apply Forall_app.
    destruct (Z.ltb_spec 0 c); split; try constructor; try lia;
      try constructor;
      (eapply Forall_impl; [|apply monthsFrom_lower; exact Hf]);
      cbv beta; intros; lia. }
  assert (filter (fun event => Date_leb (VestingEvent.date event) asOfDate) l
          = []) as Hnone.
  { assert (Forall (fun d => Date_leb d asOfDate = false) (dates l)) as Hall.
    { rewrite Hdates, Forall_map.
      eapply Forall_impl; [|exact Hlow]. cbv beta. intros m Hm.
      destruct (Date_leb (addMonths grantDate m) asOfDate) eqn:Hle;
        [|reflexivity].
      apply Date_lt_not_leb in Hearly.
      rewrite (Date_leb_trans _ (addMonths grantDate m)) in Hearly;
        [discriminate | | exact Hle].
      apply addMonths_le; [destruct (0 <? c) eqn:E; lia | exact Hm].
    }
    clear - Hall. unfold dates in Hall. rewrite Forall_map in Hall.
    induction Hall as [|event l Hevent _ IH]; [reflexivity|].
    simpl. now rewrite Hevent. }
  rewrite Hnone. reflexivity.
Qed.

Lemma totalVested_before_first_tranche_witness :
  calculateTotalVestedShares
    (grantWith (Num 1200)
       (scheduleOf (generateVestingSchedule d20240101 1200 4 12 3)))
    (mkDate 2024 11 31 0)
  = Num 0.
Proof.
  apply (totalVested_before_first_tranche
           (grantWith (Num 1200)
              (scheduleOf (generateVestingSchedule d20240101 1200 4 12 3)))
           d20240101 1200 4 12 3
           (scheduleOf (generateVestingSchedule d20240101 1200 4 12 3))).
  - unfold validInputs; lia.
  - reflexivity.
  - vm_compute. repeat constructor.
  - reflexivity.
Defined.

(** When every tranche has a stored price that is neither zero nor [NaN],
    the total value is the sum of quantity times stored price and does not
    depend on the fallback price. *)
Theorem calculateTotalValue_all_priced
    (grant : RSUGrant.t) (fallbackPrice otherPrice : number) :
  Forall (fun event =>
            exists p, VestingEvent.price event = Some p /\ truthy p = true)
         (RSUGrant.vestingSchedule grant) ->
  calculateTotalValue grant fallbackPrice
  = sum_numbers
      (map (fun event =>
              nmul (VestingEvent.quantity event)
                   (match VestingEvent.price event with
                    | Some p => p
                    | None => NaN
                    end))
           (RSUGrant.vestingSchedule grant))
  /\ calculateTotalValue grant fallbackPrice
     = calculateTotalValue grant otherPrice.
Proof.
  intros Hall.
  assert (forall fallback,
            calculateTotalValue grant fallback
            = sum_numbers
                (map (fun event =>
                        nmul (VestingEvent.quantity event)
                             (match VestingEvent.price event with
                              | Some p => p
                              | None => NaN
                              end))
                     (RSUGrant.vestingSchedule grant))) as Hvalue.
  { intros fallback. rewrite calculateTotalValue_reduce. f_equal.
    apply map_ext_in. intros event Hin.
    rewrite Forall_forall in Hall.
    destruct (Hall event Hin) as (p & Hp & Htruthy).
    rewrite <- or_else_tranchePrice. unfold or_else.
    now rewrite Hp, Htruthy. }
  split; [apply Hvalue|]. now rewrite !Hvalue.
Qed.

Lemma calculateTotalValue_all_priced_witness :
  calculateTotalValue
    (grantWith (Num 30)
       [VestingEvent.mk d20240101 (Num 10) (Some (Num 7)) None None;
        VestingEvent.mk d20240101 (Num 20) (Some (Num 9)) None None])
    (Num 5)
  = calculateTotalValue
      (grantWith (Num 30)
         [VestingEvent.mk d20240101 (Num 10) (Some (Num 7)) None None;
          VestingEvent.mk d20240101 (Num 20) (Some (Num 9)) None None])
      (Num 1000).
Proof.
  refine (proj2 (calculateTotalValue_all_priced _ (Num 5) (Num 1000) _)).
  repeat constructor; eexists; split; reflexivity.
Defined.

(** ** The price client, further *)

(** Closes the cases in which the response carries no usable price. *)
Ltac no_price :=
  right; split;
  [ let Hnet := fresh "Hnet" in
    let Hbody := fresh "Hbody" in
    intros ? ? ? Hnet ? Hbody ?;
    try discriminate Hnet; injection Hnet as <-; simpl in *;
    try congruence; injection Hbody as <-; simpl in *; congruence
  | eexists; reflexivity ].

Lemma fetchStockPrice_cases (world : World) (symbol : string) (s : State) :
  (exists response result price,
     network world (List.length (requests s)) (CurrentQuote symbol)
     = Some response /\
     ok response = true /\
     body response = Json (Some result) /\
     regularMarketPrice result = Some price /\
     truthy price = true /\
     fst (fetchStockPrice world symbol s) = Return price)
  \/
  ((forall response result price,
      network world (List.length (requests s)) (CurrentQuote symbol)
      = Some response ->
      ok response = true ->
      body response = Json (Some result) ->
      regularMarketPrice result = Some price ->
      truthy price = false) /\
   exists message, fst (fetchStockPrice world symbol s) = Throw message).
Proof.
  unfold fetchStockPrice, try_catch, bind, fetch, json, throw, ret.
  destruct (network world (List.length (requests s)) (CurrentQuote symbol))
    as [[okay code content]|]; simpl; [|no_price].
  destruct okay; simpl; [|no_price].
  destruct content as [|[[regular quote adj]|]]; simpl; try no_price.
  destruct regular as [price|]; simpl; [|no_price].
  destruct (truthy price) eqn:Htruthy; [|no_price].
  left. do 3 eexists. repeat split; try reflexivity. exact Htruthy.
Qed.

(** [fetchStockPrice] returns a price exactly when the fetch is answered,
    the response is OK and its data carry a [regularMarketPrice] that is
    neither zero nor [NaN], and then it returns that price; in every other
    case it throws. *)
Theorem fetchStockPrice_returns_iff
    (world : World) (symbol : string) (s : State) (price : number) :
  fst (fetchStockPrice world symbol s) = Return price
  <-> exists response result,
        network world (List.length (requests s)) (CurrentQuote symbol)
        = Some response /\
        ok response = true /\
        body response = Json (Some result) /\
        regularMarketPrice result = Some price /\
        truthy price = true.
Proof.
  destruct (fetchStockPrice_cases world symbol s)
    as [(response & result & p & Hnet & Hok & Hbody & Hprice & Htruthy & Hrun)
       |(Hnone & message & Hrun)]; rewrite Hrun; split.
  - intros [= <-]. now exists response, result.
  - intros (response' & result' & Hnet' & _ & Hbody' & Hprice' & _).
    rewrite Hnet in Hnet'. injection Hnet' as <-.
    rewrite Hbody in Hbody'. injection Hbody' as <-.
    rewrite Hprice in Hprice'. now injection Hprice' as <-.
  - discriminate.
  - intros (response & result & Hnet & Hok & Hbody & Hprice & Htruthy).
    rewrite (Hnone response result price Hnet Hok Hbody Hprice) in Htruthy.
    discriminate.
Qed.

Lemma fetchStockPrice_truthy (world : World) (symbol : string) (s s' : State)
    (price : number) :
  fetchStockPrice world symbol s = (Return price, s') -> truthy price = true.
Proof.
  intros Hrun.
  destruct (fetchStockPrice_cases world symbol s)
    as [(_ & _ & p & _ & _ & _ & _ & Htruthy & Hp)|(_ & message & Hthrow)];
    rewrite Hrun in *; simpl in *.
  - now injection Hp as <-.
  - discriminate.
Qed.

Lemma fetchHistoricalPrice_past
    (world : World) (symbol : string) (date : Date) (s : State) :
  Date_gtb date (clock world (clockReads s)) = false ->
  snd (fetchHistoricalPrice world symbol date s)
  = mkState (S (clockReads s))
      (requests s ++ [HistoricalQuote symbol date])%list (stockPrices s)
  /\ fst (fetchHistoricalPrice world symbol date s) <> Return None.
Proof.
  intros Hpast.
  unfold fetchHistoricalPrice, try_catch, bind, newDate, fetch, json, throw, ret.
  rewrite Hpast. simpl.
  destruct (network world (List.length (requests s))
              (HistoricalQuote symbol date))
    as [[okay code content]|]; simpl; [|split; [reflexivity | discriminate]].
  destruct okay; simpl; [|split; [reflexivity | discriminate]].
  destruct content as [|[[regular quote adj]|]]; simpl;
    try (split; [reflexivity | discriminate]).
  destruct quote as [[close|]|]; simpl;
    try (split; [reflexivity | discriminate]).
  destruct adj as [adjusted|]; simpl;
    try (split; [reflexivity | discriminate]).
  destruct regular as [price|]; simpl;
    try (split; [reflexivity | discriminate]).
  destruct (truthy price); simpl; split; try reflexivity; discriminate.
Qed.

(** [fetchHistoricalPrice] returns [null] only for a date later than the
    date the clock shows, and then without a request. *)
Theorem fetchHistoricalPrice_null_only_future
    (world : World) (symbol : string) (date : Date) (s s' : State) :
  fetchHistoricalPrice world symbol date s = (Return None, s') ->
  Date_gtb date (clock world (clockReads s)) = true /\
  requests s' = requests s.
Proof.
  intros Hrun.
  destruct (Date_gtb date (clock world (clockReads s))) eqn:Hfuture.
  - split; [reflexivity|].
    unfold fetchHistoricalPrice, try_catch, bind, newDate in Hrun.
    rewrite Hfuture in Hrun. simpl in Hrun. now injection Hrun as <-.
  - destruct (fetchHistoricalPrice_past world symbol date s Hfuture)
      as [_ Hnot].
    rewrite Hrun in Hnot. now contradiction Hnot.
Qed.

Lemma fetchHistoricalPrice_null_only_future_witness :
  Date_gtb (mkDate 2030 0 1 0) (clock offline 0) = true.
Proof.
  refine (proj1 (fetchHistoricalPrice_null_only_future offline "ACME"
                   (mkDate 2030 0 1 0) initialState (mkState 1 [] []) _)).
  reflexivity.
Defined.

(** For a date that is not in the future [fetchHistoricalPrice] reads the
    clock once and makes exactly one request, for that symbol and date,
    whatever the answer. *)
Theorem fetchHistoricalPrice_one_request
    (world : World) (symbol : string) (date : Date) (s : State) :
  Date_gtb date (clock world (clockReads s)) = false ->
  snd (fetchHistoricalPrice world symbol date s)
  = mkState (S (clockReads s))
      (requests s ++ [HistoricalQuote symbol date])%list (stockPrices s).
Proof.
  intros Hpast. apply (fetchHistoricalPrice_past world symbol date s Hpast).
Qed.

Lemma fetchHistoricalPrice_one_request_witness :
  snd (fetchHistoricalPrice offline "ACME" (mkDate 2020 0 1 0) initialState)
  = mkState 1 [HistoricalQuote "ACME" (mkDate 2020 0 1 0)] [].
Proof.
  apply (fetchHistoricalPrice_one_request offline "ACME" (mkDate 2020 0 1 0)
           initialState).
  reflexivity.
Defined.

(** ** [updateVestPrices], further *)

(** What holds of every call of the callback holds along the mapped list. *)
Lemma mapM_Forall2 {A B} (f : A -> M B) (P : A -> B -> Prop) :
  (forall x s y s', f x s = (Return y, s') -> P x y) ->
  forall l s l' s', mapM f l s = (Return l', s') -> Forall2 P l l'.
Proof.
  intros Hf. induction l as [|x l IH]; intros s l' s' Hrun.
  - injection Hrun as <- _. constructor.
  - simpl in Hrun. unfold bind in Hrun.
    destruct (f x s) as [[y|message] s1] eqn:Hx; [|discriminate].
    destruct (mapM f l s1) as [[ys|message] s2] eqn:Hl; [|discriminate].
    injection Hrun as <- _.
    constructor; [eapply Hf, Hx | eapply IH, Hl].
Qed.

Lemma updateEvent_priced (world : World) (grant : RSUGrant.t)
    (currentPrice : number) (event event' : VestingEvent.t) (s s' : State) :
  updateEvent world grant currentPrice event s = (Return event', s') ->
  sameTranche event event' /\ pricedTranche (RSUGrant.grantPrice grant) event'.
Proof.
  unfold updateEvent, bind, try_catch, newDate, ret.
  destruct (Date_leb (VestingEvent.date event) (clock world (clockReads s))).
  - destruct (fetchHistoricalPrice world (RSUGrant.symbol grant)
                (VestingEvent.date event)
                (mkState (S (clockReads s)) (requests s) (stockPrices s)))
      as [[historicalPrice|message] s1]; intros [= <- _];
      (split; [split; reflexivity|]); split; simpl; auto.
  - intros [= <- _]. (split; [split; reflexivity|]); split; simpl; auto.
Qed.

Lemma mapM_updateEvent_priced (world : World) (grant : RSUGrant.t)
    (currentPrice : number) (l l' : list VestingEvent.t) (s s' : State) :
  mapM (updateEvent world grant currentPrice) l s = (Return l', s') ->
  Forall2 sameTranche l l' /\
  Forall (pricedTranche (RSUGrant.grantPrice grant)) l'.
Proof.
  intros Hrun.
  pose proof (mapM_Forall2 (updateEvent world grant currentPrice)
                (fun event event' =>
                   sameTranche event event' /\
                   pricedTranche (RSUGrant.grantPrice grant) event')
                (fun x s0 y s0' => updateEvent_priced world grant currentPrice x y s0 s0')
                l s l' s' Hrun) as Hall.
  clear Hrun. induction Hall as [|event event' l l' [Hsame Hpriced] _ [IH1 IH2]];
    split; constructor; assumption.
Qed.

(** The two outcomes of [updateVestPrices] in the smaller component. *)
Lemma RSUCalculator_update_cases
    (world : World) (grant grant' : RSUGrant.t) (s s' : State) :
  RSUCalculator.updateVestPrices world grant s = (Return grant', s') ->
  (exists message,
     fetchStockPrice world (RSUGrant.symbol grant) s = (Throw message, s') /\
     grant' = withPriceError grant)
  \/
  (exists currentPrice s1 updated,
     fetchStockPrice world (RSUGrant.symbol grant) s
     = (Return currentPrice, s1) /\
     mapM (updateEvent world grant currentPrice)
          (RSUGrant.vestingSchedule grant) s1
     = (Return updated, s') /\
     grant' = withPrices grant currentPrice updated).
Proof.
  unfold RSUCalculator.updateVestPrices, try_catch, bind at 1.
  destruct (fetchStockPrice world (RSUGrant.symbol grant) s)
    as [[currentPrice|message] s1].
  - destruct (mapM_updateEvent_returns world grant currentPrice
                (RSUGrant.vestingSchedule grant) s1)
      as (updated & s2 & Hmap & _).
    unfold bind. rewrite Hmap. intros [= <- <-].
    right. exists currentPrice, s1, updated. now repeat split.
  - intros [= <- <-]. left. exists message. now split.
Qed.

(** The two outcomes of [updateVestPrices] in the larger component. *)
Lemma CompensationCalculator_update_cases
    (world : World) (grant grant' : RSUGrant.t) (s s' : State) :
  CompensationCalculator.updateVestPrices world grant s = (Return grant', s') ->
  (exists message,
     fetchStockPrice world (RSUGrant.symbol grant) s = (Throw message, s') /\
     grant' = withPriceError grant)
  \/
  (exists currentPrice s1 updated,
     fetchStockPrice world (RSUGrant.symbol grant) s
     = (Return currentPrice, s1) /\
     mapM (updateEvent world grant currentPrice)
          (RSUGrant.vestingSchedule grant)
          (mkState (S (clockReads s1)) (requests s1)
             (CompensationCalculator.recordCurrentPrice
                (RSUGrant.symbol grant) (clock world (clockReads s1))
                currentPrice (stockPrices s1)))
     = (Return updated, s') /\
     grant' = withPrices grant currentPrice updated).
Proof.
  unfold CompensationCalculator.updateVestPrices, try_catch, bind at 1.
  destruct (fetchStockPrice world (RSUGrant.symbol grant) s)
    as [[currentPrice|message] s1].
  - unfold bind, newDate, setStockPrices. simpl clockReads. simpl requests.
    simpl stockPrices.
    match goal with
    | |- context [mapM ?f ?l ?st] =>
        destruct (mapM_updateEvent_returns world grant currentPrice l st)
          as (updated & s2 & Hmap & _)
    end.
    rewrite Hmap. intros [= <- <-].
    right. exists currentPrice, s1, updated. now repeat split.
  - intros [= <- <-]. left. exists message. now split.
Qed.

(** When the current price is fetched, it is neither zero nor [NaN], and
    the grant [updateVestPrices] of either component returns carries it,
    keeps whatever [priceError] it had before, even one left by an earlier
    failure, and every tranche has a value computed from its own price or
    the grant price, and an error only when it has no price. *)
Theorem updateVestPrices_success
    (world : World) (grant : RSUGrant.t) (s s1 : State)
    (currentPrice : number) :
  fetchStockPrice world (RSUGrant.symbol grant) s = (Return currentPrice, s1) ->
  truthy currentPrice = true /\
  (forall grant' s',
     RSUCalculator.updateVestPrices world grant s = (Return grant', s') \/
     CompensationCalculator.updateVestPrices world grant s = (Return grant', s') ->
     RSUGrant.currentPrice grant' = Some currentPrice /\
     RSUGrant.priceError grant' = RSUGrant.priceError grant /\
     Forall (pricedTranche (RSUGrant.grantPrice grant))
            (RSUGrant.vestingSchedule grant')).
Proof.
  intros Hfetch. split; [eapply fetchStockPrice_truthy, Hfetch|].
  intros grant' s' [Hrun|Hrun];
    [apply RSUCalculator_update_cases in Hrun
    |apply CompensationCalculator_update_cases in Hrun];
    destruct Hrun as [(message & Hthrow & _)
                     |(price & s2 & updated & Hreturn & Hmap & ->)];
    try (rewrite Hfetch in Hthrow; discriminate);
    rewrite Hfetch in Hreturn; injection Hreturn as <- <-;
    apply mapM_updateEvent_priced in Hmap; destruct Hmap as [_ Hpriced];
    repeat split; assumption.
Qed.

Lemma updateVestPrices_success_witness :
  let world :=
    mkWorld (fun _ => mkDate 2026 0 1 0)
      (fun _ request =>
         match request with
         | CurrentQuote _ =>
             Some (mkResponse true 200
                     (Json (Some (mkChartResult (Some (Num 150)) None None))))
         | HistoricalQuote _ date =>
             if getFullYear date =? 2024
             then Some (mkResponse true 200
                          (Json (Some (mkChartResult None (Some (Some (Num 140)))
                                         None))))
             else None
         end) in
  let grant :=
    RSUGrant.mk d20240101 (Num 100) (Num 1000) "ACME" None
      (Some "Failed to fetch prices"%string)
      (scheduleOf (generateVestingSchedule d20240101 100 1 0 6)) in
  exists grant' s',
    RSUCalculator.updateVestPrices world grant initialState
    = (Return grant', s') /\
    map VestingEvent.price (RSUGrant.vestingSchedule grant')
    = [Some (Num 140); None] /\
    map VestingEvent.priceError (RSUGrant.vestingSchedule grant')
    = [None; Some "Failed to fetch price"%string] /\
    RSUGrant.currentPrice grant' = Some (Num 150) /\
    RSUGrant.priceError grant' = Some "Failed to fetch prices"%string /\
    Forall (pricedTranche (Num 1000)) (RSUGrant.vestingSchedule grant').
Proof.
  intros world grant.
  assert (fetchStockPrice world (RSUGrant.symbol grant) initialState
          = (Return (Num 150), mkState 0 [CurrentQuote "ACME"] []))
    as Hfetch by reflexivity.
  do 2 eexists. split; [reflexivity|].
  split; [reflexivity|]. split; [reflexivity|].
  refine (proj2 (updateVestPrices_success world grant initialState _
                   (Num 150) Hfetch) _ _ _).
  left. reflexivity.
Defined.

Lemma update_sameTranche
    (world : World) (grant grant' : RSUGrant.t) (s s' : State) :
  RSUCalculator.updateVestPrices world grant s = (Return grant', s') \/
  CompensationCalculator.updateVestPrices world grant s = (Return grant', s') ->
  Forall2 sameTranche (RSUGrant.vestingSchedule grant)
          (RSUGrant.vestingSchedule grant').
Proof.
  intros [Hrun|Hrun];
    [apply RSUCalculator_update_cases in Hrun
    |apply CompensationCalculator_update_cases in Hrun];
    destruct Hrun as [(message & _ & ->)
                     |(price & s2 & updated & _ & Hmap & ->)];
    try apply Forall2_sameTranche_refl;
    apply mapM_updateEvent_priced in Hmap; apply Hmap.
Qed.

(** Refreshing the prices of a grant never changes how many of its shares
    are vested at any date. *)
Theorem updateVestPrices_keeps_vested
    (world : World) (grant grant' : RSUGrant.t) (s s' : State)
    (asOfDate : Date) :
  RSUCalculator.updateVestPrices world grant s = (Return grant', s') \/
  CompensationCalculator.updateVestPrices world grant s = (Return grant', s') ->
  calculateTotalVestedShares grant' asOfDate
  = calculateTotalVestedShares grant asOfDate.
Proof.
  intros Hrun. unfold calculateTotalVestedShares.
  apply vested_fold_sameTranche.
  eapply update_sameTranche, Hrun.
Qed.

Lemma updateVestPrices_keeps_vested_witness :
  let grant :=
    grantWith (Num 1200)
      (scheduleOf (generateVestingSchedule d20240101 1200 4 12 3)) in
  calculateTotalVestedShares (withPriceError grant) (mkDate 2026 0 1 0)
  = calculateTotalVestedShares grant (mkDate 2026 0 1 0).
Proof.
  intros grant.
  apply (updateVestPrices_keeps_vested offline grant (withPriceError grant)
           initialState (mkState 0 [CurrentQuote "ACME"] [])).
  left. reflexivity.
Defined.

Lemma mapM_updateEvent_unvested (world : World) (grant : RSUGrant.t)
    (currentPrice : number) (l : list VestingEvent.t) :
  truthy currentPrice = true ->
  (forall k, Forall (fun event =>
                       Date_leb (VestingEvent.date event) (clock world k)
                       = false) l) ->
  forall s,
    mapM (updateEvent world grant currentPrice) l s
    = (Return (map (pricedAtCurrent currentPrice) l),
       mkState (clockReads s + List.length l) (requests s) (stockPrices s)).
Proof.
  intros Htruthy. induction l as [|event l IH]; intros Hfuture s.
  - simpl. unfold ret. rewrite Nat.add_0_r. now destruct s.
  - assert (forall k, Forall (fun event =>
                                Date_leb (VestingEvent.date event)
                                         (clock world k) = false) l) as Hrest
      by (intros k; specialize (Hfuture k); now inversion Hfuture).
    pose proof (Hfuture (clockReads s)) as Hnow.
    inversion Hnow as [|? ? Hevent _]; subst.
    simpl mapM. unfold bind at 1.
    unfold updateEvent at 1. unfold bind, try_catch, newDate, ret.
    rewrite Hevent. simpl fst. simpl snd.
    rewrite (IH Hrest). simpl.
    unfold pricedAtCurrent at 1. unfold or_else. rewrite Htruthy.
    do 2 f_equal. lia.
Qed.

(** For a grant none of whose tranches has vested, whenever the clock is
    read, a successful [updateVestPrices] makes the current-price request
    and no other, and prices every tranche at the current price, with the
    value quantity times current price and no error. *)
Theorem updateVestPrices_unvested
    (world : World) (grant : RSUGrant.t) (s s1 : State)
    (currentPrice : number) :
  fetchStockPrice world (RSUGrant.symbol grant) s = (Return currentPrice, s1) ->
  (forall k, Forall (fun event =>
                       Date_leb (VestingEvent.date event) (clock world k)
                       = false)
                    (RSUGrant.vestingSchedule grant)) ->
  RSUCalculator.updateVestPrices world grant s
  = (Return (withPrices grant currentPrice
               (map (pricedAtCurrent currentPrice)
                    (RSUGrant.vestingSchedule grant))),
     mkState (clockReads s + List.length (RSUGrant.vestingSchedule grant))
       (requests s ++ [CurrentQuote (RSUGrant.symbol grant)])%list
       (stockPrices s)).
Proof.
  intros Hfetch Hfuture.
  pose proof (fetchStockPrice_truthy _ _ _ _ _ Hfetch) as Htruthy.
  pose proof (fetchStockPrice_state world (RSUGrant.symbol grant) s) as Hstate.
  rewrite Hfetch in Hstate. simpl in Hstate. subst s1.
  unfold RSUCalculator.updateVestPrices, try_catch, bind at 1.
  rewrite Hfetch. unfold bind.
  rewrite (mapM_updateEvent_unvested world grant currentPrice _ Htruthy Hfuture).
  reflexivity.
Qed.

Lemma updateVestPrices_unvested_witness :
  let quote :=
    mkResponse true 200
      (Json (Some (mkChartResult (Some (Num 150)) None None))) in
  let world := mkWorld (fun _ => d20240101) (fun _ _ => Some quote) in
  let grant :=
    grantWith (Num 100)
      (scheduleOf (generateVestingSchedule d20240101 100 1 0 6)) in
  exists grant' s',
    RSUCalculator.updateVestPrices world grant initialState
    = (Return grant', s') /\
    requests s' = [CurrentQuote "ACME"] /\
    map VestingEvent.value (RSUGrant.vestingSchedule grant')
    = [Some (Num 7500); Some (Num 7500)].
Proof.
  intros quote world grant.
  do 2 eexists. split.
  - apply (updateVestPrices_unvested world grant initialState
             (mkState 0 [CurrentQuote "ACME"] []) (Num 150)).
    + reflexivity.
    + intros k. vm_compute. repeat constructor.
  - split; reflexivity.
Defined.

(** ** The table of stock prices *)

(** Recording the current price of a symbol leaves exactly one entry marked
    as the current price of that symbol, the new one, and keeps every other
    entry, in order. *)
Theorem recordCurrentPrice_unique
    (symbol : string) (today : Date) (currentPrice : number)
    (prev : list StockPriceEntry.t) :
  let table :=
    CompensationCalculator.recordCurrentPrice symbol today currentPrice prev in
  filter (isCurrentPriceOf symbol) table
  = [StockPriceEntry.mk symbol today currentPrice (Some true)] /\
  filter (fun p => negb (isCurrentPriceOf symbol p)) table
  = filter (fun p => negb (isCurrentPriceOf symbol p)) prev.
Proof.
  unfold CompensationCalculator.recordCurrentPrice. cbv zeta.
  fold (isCurrentPriceOf symbol).
  rewrite !filter_app.
  assert (forall l,
            filter (isCurrentPriceOf symbol)
              (filter (fun p => negb (isCurrentPriceOf symbol p)) l) = [])
    as Hnone.
  { induction l as [|p l IH]; [reflexivity|]. simpl.
    destruct (isCurrentPriceOf symbol p) eqn:Hp; simpl; [exact IH|].
    now rewrite Hp. }
  assert (forall l,
            filter (fun p => negb (isCurrentPriceOf symbol p))
              (filter (fun p => negb (isCurrentPriceOf symbol p)) l)
            = filter (fun p => negb (isCurrentPriceOf symbol p)) l)
    as Hsame.
  { induction l as [|p l IH]; [reflexivity|]. simpl.
    destruct (isCurrentPriceOf symbol p) eqn:Hp; simpl; [exact IH|].
    now rewrite Hp, IH. }
  rewrite Hnone, Hsame. simpl.
  unfold isCurrentPriceOf. simpl. rewrite String.eqb_refl. simpl.
  split; [reflexivity | apply app_nil_r].
Qed.

(** ** Sorting *)

Section Sorting.

Context {A : Type}.
Variable before : A -> A -> bool.

Lemma insertSorted_perm (x : A) (l : list A) :
  Permutation (x :: l) (insertSorted before x l).
Proof.
  induction l as [|y l IH]; simpl; [reflexivity|].
  destruct (before x y); [reflexivity|].
  rewrite perm_swap. now constructor.
Qed.

Lemma sortBy_perm (l : list A) : Permutation l (sortBy before l).
Proof.
  induction l as [|x l IH]; simpl; [constructor|].
  rewrite <- insertSorted_perm. now constructor.
Qed.

Hypothesis before_total : forall a b, before a b = false -> before b a = true.
Hypothesis before_trans :
  forall a b c, before a b = true -> before b c = true -> before a c = true.

Lemma insertSorted_sorted (x : A) (l : list A) :
  StronglySorted (fun a b => before a b = true) l ->
  StronglySorted (fun a b => before a b = true) (insertSorted before x l).
Proof.
  induction 1 as [|y l Hsorted IH Hhead]; simpl.
  - repeat constructor.
  - destruct (before x y) eqn:Hxy.
    + constructor; [now constructor|].
      constructor; [exact Hxy|].
      eapply Forall_impl; [|exact Hhead].
      cbv beta. intros z Hyz. eapply before_trans; eassumption.
    + constructor; [exact IH|].
      eapply Permutation_Forall; [apply insertSorted_perm|].
      constructor; [now apply before_total | exact Hhead].
Qed.

Lemma sortBy_sorted (l : list A) :
  StronglySorted (fun a b => before a b = true) (sortBy before l).
Proof.
  induction l as [|x l IH]; simpl; [constructor|].
  now apply insertSorted_sorted.
Qed.

(** In a sorted list [find] returns an element that may precede every
    other element satisfying the test. *)
Lemma find_sorted (test : A -> bool) (l : list A) (x : A) :
  StronglySorted (fun a b => before a b = true) l ->
  find test l = Some x ->
  In x l /\ test x = true /\
  forall y, In y l -> test y = true -> y = x \/ before x y = true.
Proof.
  induction 1 as [|a l Hsorted IH Hhead]; simpl; [discriminate|].
  destruct (test a) eqn:Ha.
  - intros [= <-]. repeat split; [now left | exact Ha |].
    intros y [<-|Hy] _; [now left | right].
    rewrite Forall_forall in Hhead. now apply Hhead.
  - intros Hfind. destruct (IH Hfind) as (Hin & Htest & Hfirst).
    repeat split; [now right | exact Htest |].
    intros y [<-|Hy] Hty; [congruence | now apply Hfirst].
Qed.

End Sorting.

(** ** The tables of the components *)

(** [allVestingEvents] lists every tranche of every grant exactly once, in
    the order of their dates. *)
Theorem allVestingEvents_sorted (grants : list RSUGrant.t) :
  Permutation
    (flat_map
       (fun grant =>
          map (fun event =>
                 GrantEvent.mk event (RSUGrant.symbol grant)
                   (RSUGrant.grantPrice grant) (RSUGrant.currentPrice grant))
              (RSUGrant.vestingSchedule grant))
       grants)
    (allVestingEvents grants) /\
  StronglySorted
    (fun a b => Date_leb (GrantEvent.date a) (GrantEvent.date b) = true)
    (allVestingEvents grants) /\
  List.length (allVestingEvents grants)
  = List.length (flat_map RSUGrant.vestingSchedule grants).
Proof.
  unfold allVestingEvents. split; [apply sortBy_perm|]. split.
  - apply (sortBy_sorted
             (fun a b => Date_leb (GrantEvent.date a) (GrantEvent.date b))).
    + intros a b. apply Date_leb_total.
    + intros a b c. apply Date_leb_trans.
  - rewrite <- (Permutation_length (sortBy_perm _ _)).
    induction grants as [|grant grants IH]; [reflexivity|].
    simpl. rewrite !length_app, length_map, IH. reflexivity.
Qed.

(** [getPriceForDate] returns the price of an entry of the symbol dated on
    or before the date and no earlier than any other such entry; it
    returns nothing exactly when the symbol has no entry on or before the
    date. *)
Theorem getPriceForDate_latest
    (stockPrices : list StockPriceEntry.t) (symbol : string) (date : Date) :
  match getPriceForDate stockPrices symbol date with
  | Some price =>
      exists p,
        In p stockPrices /\
        StockPriceEntry.symbol p = symbol /\
        StockPriceEntry.price p = price /\
        Date_leb (StockPriceEntry.date p) date = true /\
        forall q,
          In q stockPrices ->
          StockPriceEntry.symbol q = symbol ->
          Date_leb (StockPriceEntry.date q) date = true ->
          Date_leb (StockPriceEntry.date q) (StockPriceEntry.date p) = true
  | None =>
      forall p,
        In p stockPrices ->
        StockPriceEntry.symbol p = symbol ->
        Date_leb (StockPriceEntry.date p) date = false
  end.
Proof.
  unfold getPriceForDate. cbv zeta.
  set (before := fun a b : StockPriceEntry.t =>
                   Date_leb (StockPriceEntry.date b) (StockPriceEntry.date a)).
  set (ofSymbol := filter (fun p => String.eqb (StockPriceEntry.symbol p) symbol)
                          stockPrices).
  assert (forall p, In p (sortBy before ofSymbol)
                    <-> In p stockPrices /\ StockPriceEntry.symbol p = symbol)
    as Hin.
  { intros p. split.
    - intros Hp.
      apply (Permutation_in _ (Permutation_sym (sortBy_perm before ofSymbol)))
        in Hp.
      apply filter_In in Hp. destruct Hp as [Hp Hsym].
      split; [exact Hp | now apply String.eqb_eq].
    - intros [Hp Hsym].
      apply (Permutation_in _ (sortBy_perm before ofSymbol)).
      apply filter_In. split; [exact Hp | now apply String.eqb_eq]. }
  assert (StronglySorted (fun a b => before a b = true)
                         (sortBy before ofSymbol)) as Hsorted.
  { apply sortBy_sorted; unfold before.
    - intros a b. apply Date_leb_total.
    - intros a b c Hab Hbc. eapply Date_leb_trans; eassumption. }
  destruct (find (fun p => Date_leb (StockPriceEntry.date p) date)
                 (sortBy before ofSymbol)) as [p|] eqn:Hfind; simpl.
  - destruct (find_sorted before _ _ _ Hsorted Hfind)
      as (Hp & Hdate & Hfirst).
    apply Hin in Hp. destruct Hp as [Hp Hsym].
    exists p. repeat split; try assumption.
    intros q Hq Hqsym Hqdate.
    destruct (Hfirst q (proj2 (Hin q) (conj Hq Hqsym)) Hqdate) as [->|Hpq];
      [apply Date_leb_spec; lia | exact Hpq].
  - intros p Hp Hsym.
    apply (find_none _ _ Hfind p). apply Hin. now split.
Qed.

(** For a tranche that is vested at the rendering, or that carries the
    current price, the value the vesting table shows after a successful
    [updateVestPrices] is the value stored on the tranche. *)
Theorem rowValue_shows_stored_value
    (world : World) (grant grant' : RSUGrant.t) (s s1 s' : State)
    (currentPrice : number) (now : Date) :
  fetchStockPrice world (RSUGrant.symbol grant) s = (Return currentPrice, s1) ->
  RSUCalculator.updateVestPrices world grant s = (Return grant', s') ->
  Forall (fun event =>
            Date_leb (VestingEvent.date event) now = true \/
            VestingEvent.price event = Some currentPrice ->
            Some (rowValue now
                    (GrantEvent.mk event (RSUGrant.symbol grant')
                       (RSUGrant.grantPrice grant')
                       (RSUGrant.currentPrice grant')))
            = VestingEvent.value event)
         (RSUGrant.vestingSchedule grant').
Proof.
  intros Hfetch Hrun.
  apply RSUCalculator_update_cases in Hrun.
  destruct Hrun as [(message & Hthrow & _)
                   |(price & s2 & updated & Hreturn & Hmap & ->)];
    [rewrite Hfetch in Hthrow; discriminate|].
  rewrite Hfetch in Hreturn. injection Hreturn as <- <-.
  apply mapM_updateEvent_priced in Hmap. destruct Hmap as [_ Hpriced].
  simpl. eapply Forall_impl; [|exact Hpriced].
  cbv beta. intros event [Hvalue _] Hcase.
  rewrite Hvalue. unfold rowValue, GrantEvent.date. simpl.
  destruct (Date_leb (VestingEvent.date event) now); [reflexivity|].
  destruct Hcase as [Hvested|Hprice]; [discriminate|].
  now rewrite Hprice.
Qed.

Lemma rowValue_shows_stored_value_witness :
  let quote :=
    mkResponse true 200
      (Json (Some (mkChartResult (Some (Num 150)) None None))) in
  let world := mkWorld (fun _ => d20240101) (fun _ _ => Some quote) in
  let grant :=
    grantWith (Num 100)
      (scheduleOf (generateVestingSchedule d20240101 100 1 0 6)) in
  exists grant' s',
    RSUCalculator.updateVestPrices world grant initialState
    = (Return grant', s') /\
    Forall (fun event =>
              Date_leb (VestingEvent.date event) (mkDate 2024 8 1 0) = true \/
              VestingEvent.price event = Some (Num 150) ->
              Some (rowValue (mkDate 2024 8 1 0)
                      (GrantEvent.mk event (RSUGrant.symbol grant')
                         (RSUGrant.grantPrice grant')
                         (RSUGrant.currentPrice grant')))
              = VestingEvent.value event)
           (RSUGrant.vestingSchedule grant').
Proof.
  intros quote world grant.
  do 2 eexists. split; [reflexivity|].
  eapply (rowValue_shows_stored_value world grant _ initialState
            (mkState 0 [CurrentQuote "ACME"] []) _ (Num 150)
            (mkDate 2024 8 1 0)); reflexivity.
Defined.

(** ** Deleting by index *)

Lemma filterIndexed_remove {A} (index : Z) (l : list A) :
  forall i,
    filterIndexed (fun _ j => negb (j =? index)) i l
    = if index <? i then l
      else firstn (Z.to_nat (index - i)) l
           ++ skipn (S (Z.to_nat (index - i))) l.
Proof.
  induction l as [|x l IH]; intros i.
  - simpl. destruct (index <? i); [reflexivity|].
    now rewrite firstn_nil.
  - simpl filterIndexed. rewrite (IH (i + 1)).
    destruct (Z.eqb_spec i index) as [->|Hneq]; simpl negb; cbv iota.
    + rewrite Z.ltb_irrefl.
      destruct (Z.ltb_spec index (index + 1)); [|lia].
      now rewrite Z.sub_diag.
    + destruct (Z.ltb_spec index i).
      * destruct (Z.ltb_spec index (i + 1)); [reflexivity | lia].
      * destruct (Z.ltb_spec index (i + 1)); [lia|].
        replace (Z.to_nat (index - i)) with (S (Z.to_nat (index - (i + 1))))
          by lia.
        reflexivity.
Qed.

(** Deleting a grant or a price point by its index removes the element at
    that index and keeps the others in order; an index outside the list
    removes nothing. *)
Theorem delete_by_index
    (index : Z) (grants : list RSUGrant.t) (prices : list StockPriceEntry.t) :
  (0 <= index ->
   handleGrantDelete index grants
   = firstn (Z.to_nat index) grants ++ skipn (S (Z.to_nat index)) grants /\
   handleStockPriceDelete index prices
   = firstn (Z.to_nat index) prices ++ skipn (S (Z.to_nat index)) prices) /\
  (index < 0 \/ Z.of_nat (List.length grants) <= index ->
   handleGrantDelete index grants = grants) /\
  (index < 0 \/ Z.of_nat (List.length prices) <= index ->
   handleStockPriceDelete index prices = prices) /\
  (0 <= index < Z.of_nat (List.length grants) ->
   S (List.length (handleGrantDelete index grants)) = List.length grants).
Proof.
  unfold handleGrantDelete, handleStockPriceDelete.
  rewrite !filterIndexed_remove, !Z.sub_0_r.
  assert (forall B (l : list B),
            index < 0 \/ Z.of_nat (List.length l) <= index ->
            (if index <? 0 then l
             else firstn (Z.to_nat index) l ++ skipn (S (Z.to_nat index)) l)
            = l) as Houtside.
  { intros B l Hout. destruct (Z.ltb_spec index 0); [reflexivity|].
    rewrite firstn_all2, skipn_all2 by lia. apply app_nil_r. }
  repeat split.
  - destruct (Z.ltb_spec index 0); [lia | reflexivity].
  - destruct (Z.ltb_spec index 0); [lia | reflexivity].
  - apply Houtside.
  - apply Houtside.
  - intros Hin. destruct (Z.ltb_spec index 0); [lia|].
    rewrite length_app, length_firstn, length_skipn. lia.
Qed.

(** ** The salary entries *)

Lemma map_id_edit (f : SalaryEntry.t -> SalaryEntry.t) (l : list SalaryEntry.t) :
  (forall s, SalaryEntry.id (f s) = SalaryEntry.id s) ->
  map SalaryEntry.id (map f l) = map SalaryEntry.id l.
Proof.
  intros Hf. rewrite map_map. apply map_ext. exact Hf.
Qed.

(** Submitting the salary form, to add or to edit, and deleting a salary
    keep the ids of the salaries distinct and below the next id. *)
Theorem salary_ids_stay_fresh
    (form : SalaryFormData.t) (salaryId : Z) (st : SalaryState) :
  salaryIdsFresh st ->
  salaryIdsFresh (handleSalarySubmit form st) /\
  salaryIdsFresh (handleSalaryDelete salaryId st).
Proof.
  intros [Hbelow Hnodup]. split.
  - unfold handleSalarySubmit.
    destruct (truthyId (SalaryFormData.editingSalaryId form)) as [editing|].
    + split; simpl.
      * rewrite Forall_map. eapply Forall_impl; [|exact Hbelow].
        cbv beta. intros s Hs.
        destruct (SalaryEntry.id s =? editing); exact Hs.
      * rewrite map_id_edit; [exact Hnodup|].
        intros s. destruct (SalaryEntry.id s =? editing); reflexivity.
    + cbv zeta. split; simpl.
      * apply Forall_app. split.
        -- eapply Forall_impl; [|exact Hbelow]. cbv beta. intros; lia.
        -- constructor; [simpl; lia | constructor].
      * rewrite map_app. simpl.
        apply NoDup_app.
        -- exact Hnodup.
        -- repeat constructor. intros [].
        -- intros i Hi [<-|[]].
           apply in_map_iff in Hi. destruct Hi as (s & Hid & Hs).
           rewrite Forall_forall in Hbelow. specialize (Hbelow s Hs). lia.
  - unfold handleSalaryDelete. split; simpl.
    + apply Forall_forall. intros s Hs. apply filter_In in Hs.
      rewrite Forall_forall in Hbelow. now apply Hbelow.
    + clear Hbelow. induction (salaries st) as [|s l IH]; [constructor|].
      simpl in *. inversion Hnodup as [|? ? Hnotin Hrest]; subst.
      destruct (SalaryEntry.id s =? salaryId); simpl; [now apply IH|].
      constructor; [|now apply IH].
      intros Hin. apply Hnotin.
      apply in_map_iff in Hin. destruct Hin as (s' & Hid & Hs').
      apply filter_In in Hs'. apply in_map_iff. exists s'. tauto.
Qed.

Lemma salary_ids_stay_fresh_witness :
  let first :=
    SalaryEntry.mk (Num 90000) (Num 25) d20240101 "Base Salary" 1 None
      initial in
  let second :=
    SalaryEntry.mk (Num 95000) (Num 25) (mkDate 2025 0 1 0) "Base Salary" 2
      (Some (Num 90000)) increase in
  let st := mkSalaryState [first; second] 3 in
  let editing :=
    SalaryFormData.mk (Num 91000) (Num 28) d20240101 "Base Salary" None
      (Some 1) in
  let adding :=
    SalaryFormData.mk (Num 99000) (Num 25) (mkDate 2026 0 1 0) "Base Salary"
      (Some 2) None in
  salaryIdsFresh st /\
  (salaryIdsFresh (handleSalarySubmit editing st) /\
   salaryIdsFresh (handleSalaryDelete 1 st)) /\
  (salaryIdsFresh (handleSalarySubmit adding st) /\
   salaryIdsFresh (handleSalaryDelete 2 st)) /\
  map SalaryEntry.amount (salaries (handleSalarySubmit editing st))
  = [Num 91000; Num 95000] /\
  map SalaryEntry.id (salaries (handleSalarySubmit adding st)) = [1; 2; 3] /\
  map SalaryEntry.id (salaries (handleSalaryDelete 1 st)) = [2].
Proof.
  intros first second st editing adding.
  assert (salaryIdsFresh st) as Hst.
  { split.
    - repeat constructor.
    - simpl. repeat constructor.
      + intros [Heq|[]]. discriminate Heq.
      + intros []. }
  split; [exact Hst|].
  split; [exact (salary_ids_stay_fresh editing 1 st Hst)|].
  split; [exact (salary_ids_stay_fresh adding 2 st Hst)|].
  repeat split.
Defined.

(** ** Witnesses of the sharpness lemmas *)


Lemma totalVested_decreases_beyond_period_witness :
  let grant :=
    grantWith (Num 1200)
      (scheduleOf (generateVestingSchedule d20240101 1200 1 24 1)) in
  exists quantity,
    RSUGrant.vestingSchedule grant
    = [newEvent (addMonths d20240101 24) quantity] /\
    (quantity = NaN \/ exists q, quantity = Num q /\ q < 0) /\
    Date_leb (addMonths d20240101 1) (addMonths d20240101 24) = true /\
    calculateTotalVestedShares grant (addMonths d20240101 1) = Num 0 /\
    calculateTotalVestedShares grant (addMonths d20240101 24) = quantity /\
    nleb (calculateTotalVestedShares grant (addMonths d20240101 1))
         (calculateTotalVestedShares grant (addMonths d20240101 24)) = false.
Proof.
  intros grant.
  apply (totalVested_decreases_beyond_period grant d20240101 1200 1 24 1).
  - unfold validInputs; lia.
  - unfold safeInputs, MAX_SAFE_INTEGER; lia.
  - lia.
  - reflexivity.
Defined.

(* ================================================================== *)
(** ** Safe integers

    Why [safeInputs] makes the integer model exact.  In binary64 a sum, a
    difference or a product is the exact result rounded, and an integer of
    magnitude at most [MAX_SAFE_INTEGER] is its own rounding: under
    [safeInputs] every value the generator computes is such an integer
    ([generator_arithmetic_safe]).  The one quotient, [totalShares /
    totalVestingEvents], is rounded before [Math.floor] is taken, and the
    floor of the rounded quotient is the floor of the exact one
    ([floor_of_rounded_quotient]). *)

(** With valid, safe inputs and the cliff within the period, every value of
    the generator is a non-negative integer within [MAX_SAFE_INTEGER]: the
    months left after the cliff, the number of events, the base quantity,
    its product with the number of events, the remainder, the quantity of
    the cliff tranche, every month the loop reaches and the month it stops
    at, and the sum of the quantities. *)
Lemma generator_arithmetic_safe (totalShares years c f : Z) :
  validInputs totalShares years c f ->
  safeInputs totalShares years c f ->
  c <= years * 12 ->
  let T := years * 12 in
  let count := eventCount T c f in
  let base := baseShares totalShares count in
  let rest := remainder totalShares count in
  totalShares <= MAX_SAFE_INTEGER /\
  0 <= T - c <= MAX_SAFE_INTEGER /\
  1 <= count <= MAX_SAFE_INTEGER /\
  0 <= base <= totalShares /\
  0 <= base * count <= totalShares /\
  0 <= rest <= totalShares /\
  0 <= base + rest <= totalShares /\
  Forall (fun m => 0 < m /\ m + f <= MAX_SAFE_INTEGER) (offsets T c f) /\
  0 <= fold_right Z.add 0 (map (quantityAt c T base rest) (offsets T c f))
    <= totalShares.
Proof.
  intros (Hs & Hy & Hc & Hf) Hsafe HcT. cbv zeta.
  unfold safeInputs in Hsafe.
  pose proof (quantityAt_sum_le totalShares years c f
                ltac:(lia) Hf Hy ltac:(lia)) as Hsum.
  cbv zeta in Hsum.
  assert (Forall (fun q => 0 <= q)
            (map (quantityAt c (years * 12)
                    (baseShares totalShares (eventCount (years * 12) c f))
                    (remainder totalShares (eventCount (years * 12) c f)))
                 (offsets (years * 12) c f))) as Hnonneg.
  { rewrite Forall_map. apply Forall_forall. intros m _.
    apply quantityAt_nonneg; lia. }
  assert (0 <= fold_right Z.add 0
                 (map (quantityAt c (years * 12)
                         (baseShares totalShares (eventCount (years * 12) c f))
                         (remainder totalShares (eventCount (years * 12) c f)))
                      (offsets (years * 12) c f))) as Hsum0.
  { clear - Hnonneg. induction Hnonneg as [|q qs Hq _ IH]; simpl; lia. }
  assert (Forall (fun m => 0 < m /\ m + f <= MAX_SAFE_INTEGER)
                 (offsets (years * 12) c f)) as Hmonths.
  { eapply Forall_impl; [|apply (offsets_within (years * 12) c f); lia].
    cbv beta. intros m Hm. lia. }
  unfold remainder in *.
  set (T := years * 12) in *.
  assert (1 <= eventCount T c f) as Hcount by (apply eventCount_pos; lia).
  assert (eventCount T c f <= T) as HcountT.
  { unfold eventCount. destruct (Z.ltb_spec 0 c).
    - assert ((T - c) / f <= T - c)
        by (apply Z.div_le_upper_bound; nia).
      lia.
    - pose proof (Z.div_le_lower_bound (- T) f (- T) ltac:(lia) ltac:(nia)).
      lia. }
  set (count := eventCount T c f) in *.
  assert (0 <= baseShares totalShares count) as Hbase
    by (apply Z.div_pos; lia).
  pose proof (Z.mul_div_le totalShares count ltac:(lia)) as Hmul.
  fold (baseShares totalShares count) in Hmul.
  set (base := baseShares totalShares count) in *.
  assert (base <= base * count) as Hbc by nia.
  assert (0 <= base * count) as Hbc0 by nia.
  repeat split; try assumption; lia.
Qed.

Section RoundedQuotient.

Import QArith Qround Qabs Lqa.
Local Open Scope Z_scope.

(** [Math.floor(a / b)] for a safe integer [a >= 0] and an integer
    [b >= 1].  The rounded quotient [r] of binary64 lies between the floor
    and the ceiling of the exact quotient, which are binary64 numbers, and
    differs from it by at most 2^-53 of its magnitude; its floor is then
    the floor of the exact quotient. *)
Lemma floor_of_rounded_quotient (a b : Z) (r : Q) :
  0 <= a <= MAX_SAFE_INTEGER -> 1 <= b ->
  (inject_Z (a / b) <= r)%Q ->
  (r <= inject_Z (- ((- a) / b)))%Q ->
  (Qabs (r - inject_Z a / inject_Z b) * inject_Z (MAX_SAFE_INTEGER + 1)
   <= inject_Z a / inject_Z b)%Q ->
  Qfloor r = a / b.
Proof.
  intros Ha Hb Hlow Hhigh Herr.
  assert (0 < inject_Z b)%Q as HB
    by (change (inject_Z 0 < inject_Z b)%Q; rewrite <- Zlt_Qlt; lia).
  assert (r < inject_Z (a / b + 1))%Q as Hlt.
  { destruct (Z.eq_dec (a mod b) 0) as [Hdiv|Hrem].
    - rewrite Z.div_opp_l_z in Hhigh by lia.
      rewrite Z.opp_involutive in Hhigh.
      rewrite inject_Z_plus. change (inject_Z 1) with 1%Q. lra.
    - rewrite Z.div_opp_l_nz in Hhigh by lia.
      replace (- (- (a / b) - 1)) with (a / b + 1) in Hhigh by lia.
      destruct (Qlt_le_dec r (inject_Z (a / b + 1))) as [|Hge]; [assumption|].
      exfalso.
      assert (r == inject_Z (a / b) + 1)%Q as Hr
        by (rewrite inject_Z_plus in *; change (inject_Z 1) with 1%Q in *;
            lra).
      pose proof (Z.div_mod a b ltac:(lia)) as Hdm.
      pose proof (Z.mod_pos_bound a b ltac:(lia)) as Hm.
      set (x := (inject_Z a / inject_Z b)%Q) in *.
      assert (x * inject_Z b
              == inject_Z b * inject_Z (a / b) + inject_Z (a mod b))%Q as Hx.
      { unfold x. rewrite <- inject_Z_mult, <- inject_Z_plus, <- Hdm.
        field. lra. }
      assert (1 <= inject_Z (a mod b))%Q as Hm1
        by (change (inject_Z 1 <= inject_Z (a mod b))%Q;
            rewrite <- Zle_Qle; lia).
      assert (inject_Z (a mod b) <= inject_Z b - 1)%Q as Hm2.
      { setoid_replace (inject_Z b - 1)%Q with (inject_Z (b - 1))
          by (unfold Z.sub; rewrite inject_Z_plus; reflexivity).
        rewrite <- Zle_Qle. lia. }
      assert (1 <= inject_Z b)%Q as HB1
        by (change (inject_Z 1 <= inject_Z b)%Q; rewrite <- Zle_Qle; lia).
      assert (x * inject_Z b <= inject_Z (MAX_SAFE_INTEGER + 1) - 1)%Q as Hxa.
      { setoid_replace (x * inject_Z b)%Q with (inject_Z a)
          by (unfold x; field; lra).
        setoid_replace (inject_Z (MAX_SAFE_INTEGER + 1) - 1)%Q
          with (inject_Z (MAX_SAFE_INTEGER + 1 - 1))
          by (unfold Z.sub; rewrite inject_Z_plus; reflexivity).
        rewrite <- Zle_Qle. lia. }
      assert (0 <= inject_Z (MAX_SAFE_INTEGER + 1))%Q as HP
        by (change (inject_Z 0 <= inject_Z (MAX_SAFE_INTEGER + 1))%Q;
            rewrite <- Zle_Qle; unfold MAX_SAFE_INTEGER; lia).
      assert (0 <= r - x)%Q as Hpos.
      { assert ((r - x) * inject_Z b == inject_Z b - inject_Z (a mod b))%Q as E
          by (rewrite Hr; lra).
        assert (0 <= (r - x) * inject_Z b)%Q as E0 by lra.
        destruct (Qlt_le_dec (r - x) 0) as [Hneg|]; [|assumption].
        exfalso.
        assert ((r - x) * inject_Z b <= 0 * inject_Z b)%Q
          by (apply Qmult_le_compat_r; lra).
        lra. }
      rewrite (Qabs_pos _ Hpos) in Herr.
      set (P := inject_Z (MAX_SAFE_INTEGER + 1)) in *.
      set (B := inject_Z b) in *. set (M := inject_Z (a mod b)) in *.
      assert ((r - x) * B == B - M)%Q as E by (rewrite Hr; lra).
      assert (((r - x) * P) * B <= x * B)%Q as E2
        by (apply Qmult_le_compat_r; lra).
      assert ((B - M) * P <= P - 1)%Q as E3.
      { setoid_replace ((B - M) * P)%Q with (((r - x) * P) * B)%Q; [lra|].
        rewrite <- E. ring. }
      nra. }
  apply Z.le_antisymm.
  - pose proof (Qfloor_le r) as Hfl.
    assert (inject_Z (Qfloor r) < inject_Z (a / b + 1))%Q as H by lra.
    rewrite <- Zlt_Qlt in H. lia.
  - rewrite <- (Qfloor_Z (a / b)). now apply Qfloor_resp_le.
Qed.

End RoundedQuotient.
